(** * Product management: the dual-mode data-access layer

    A shallow embedding of the data-access code of the inventory manager:
    - [Offline]: the local-storage backend, [offlineApi] of
      [src/services/api-offline.ts], with its helpers and sample data;
    - [Api]: the facade [api], which tries the network first and falls back
      to [offlineApi] when the request throws;
    - [Serverless]: the JSON-file handler [exports.handler] of the demo
      deployment;
    - [Express]: of the relational server, what a search selects, the
      pagination of a listing and the answer to an update.

    Conventions.  A JavaScript number that holds an identifier, a count or a
    stock level is a [Z], and the one sum that the code takes of such
    numbers, the largest id plus one, is rounded as a double is
    ([plus_one]); a money amount is a [Z] in hundredths (the code only
    carries prices around); a timestamp is the [Z] that
    [new Date(s).getTime()] gives for the ISO string [s]; a string is a
    [string] of bytes, and [toLowerCase] and [toUpperCase] fold the letters
    of ASCII, which is what the language does on ASCII text
    ([ascii_text]); the properties that depend on the folding are stated
    for such text.  The spread [Math.max(...ids, 0)] is taken within the
    engine's limit on the number of arguments.  The delays that the offline
    backend awaits are left out. *)

From Stdlib Require Import ZArith Lia Ascii String Bool.
From stdpp Require Import base list strings sorting.

Open Scope Z_scope.

(** ** Built-ins of the language *)

(** An optional property of an object literal: the key may be left out, be
    present with the value [undefined], or carry a value.  The difference
    between the first two shows in an object spread. *)
Inductive optional (A : Type) : Type :=
  | Absent
  | Undefined
  | Given (a : A).
Arguments Absent {A}.
Arguments Undefined {A}.
Arguments Given {A} a.

(** Reading the property. *)
Definition read {A} (f : optional A) : option A :=
  match f with
  | Given a => Some a
  | _ => None
  end.

(** [{...old, ...new}] for one optional key: a key that [new] does not have
    keeps the value of [old]; a key it has wins, also when it is
    [undefined]. *)
Definition spread {A} (old : option A) (new : optional A) : option A :=
  match new with
  | Absent => old
  | Undefined => None
  | Given a => Some a
  end.

(** What [JSON.parse (JSON.stringify o)] leaves of an optional key. *)
Definition through_json {A} (f : optional A) : optional A :=
  match f with
  | Given a => Given a
  | _ => Absent
  end.

Definition lower_ascii (c : ascii) : ascii :=
  let n := nat_of_ascii c in
  if ((65 <=? n) && (n <=? 90))%nat then ascii_of_nat (n + 32) else c.

(** [toLowerCase], on ASCII text: the letters A-Z are folded, and nothing
    else is. *)
Fixpoint toLowerCase (s : string) : string :=
  match s with
  | EmptyString => EmptyString
  | String c s' => String (lower_ascii c) (toLowerCase s')
  end.

(** [startsWith t s]: [s] is a prefix of [t]. *)
Fixpoint startsWith (t s : string) {struct s} : bool :=
  match s with
  | EmptyString => true
  | String c s' =>
      match t with
      | EmptyString => false
      | String d t' => Ascii.eqb c d && startsWith t' s'
      end
  end.

(** [t.includes(s)]. *)
Fixpoint includes (t s : string) : bool :=
  startsWith t s ||
  match t with
  | EmptyString => false
  | String _ t' => includes t' s
  end.

(** Truthiness of a string: [if (search)]. *)
Definition truthy (s : string) : bool :=
  match s with
  | EmptyString => false
  | _ => true
  end.

(** [a || b] on strings. *)
Definition or_else (a : option string) (b : string) : string :=
  match a with
  | Some s => if truthy s then s else b
  | None => b
  end.

Definition digit (c : ascii) : option Z :=
  let n := nat_of_ascii c in
  if ((48 <=? n) && (n <=? 57))%nat then Some (Z.of_nat n - 48) else None.

Definition is_space (c : ascii) : bool :=
  let n := nat_of_ascii c in
  ((n =? 32) || ((9 <=? n) && (n <=? 13)))%nat.

Fixpoint skip_spaces (s : string) : string :=
  match s with
  | String c s' => if is_space c then skip_spaces s' else s
  | EmptyString => s
  end.

(** The longest run of decimal digits at the head of [s], read from [acc];
    [None] when there is no digit. *)
Fixpoint digits (acc : option Z) (s : string) : option Z :=
  match s with
  | String c s' =>
      match digit c with
      | Some d => digits (Some (10 * default 0 acc + d)) s'
      | None => acc
      end
  | EmptyString => acc
  end.

Definition hex_digit (c : ascii) : option Z :=
  let n := nat_of_ascii c in
  if ((48 <=? n) && (n <=? 57))%nat then Some (Z.of_nat n - 48)
  else if ((97 <=? n) && (n <=? 102))%nat then Some (Z.of_nat n - 87)
  else if ((65 <=? n) && (n <=? 70))%nat then Some (Z.of_nat n - 55)
  else None.

(** The same for the digits of base 16. *)
Fixpoint hex_digits (acc : option Z) (s : string) : option Z :=
  match s with
  | String c s' =>
      match hex_digit c with
      | Some d => hex_digits (Some (16 * default 0 acc + d)) s'
      | None => acc
      end
  | EmptyString => acc
  end.

(** The numeral at the head of a text without sign: in base 16 after [0x]
    or [0X], in base 10 otherwise. *)
Definition numeral (s : string) : option Z :=
  match s with
  | String "0" (String "x" s') | String "0" (String "X" s') =>
      hex_digits None s'
  | _ => digits None s
  end.

(** [Number.parseInt(s)] without a radix, on ASCII text: leading white
    space, a sign, then the numeral; [None] is [NaN].  The value is exact
    below 2^53 in size, where every integer is a double. *)
Definition parseInt (s : string) : option Z :=
  match skip_spaces s with
  | String "-" s' => Z.opp <$> numeral s'
  | String "+" s' => numeral s'
  | s' => numeral s'
  end.

(** [Array.prototype.sort] with a comparator: the sort is stable, so for a
    consistent comparator the result is the one a stable insertion gives. *)
Fixpoint insert_by {A} (cmp : A → A → Z) (x : A) (l : list A) : list A :=
  match l with
  | [] => [x]
  | y :: l' => if cmp x y <=? 0 then x :: l else y :: insert_by cmp x l'
  end.

Definition sort {A} (cmp : A → A → Z) (l : list A) : list A :=
  foldr (insert_by cmp) [] l.

(** [Math.max(...xs, 0)], for a list that the engine takes as arguments:
    beyond its limit on their number the spread throws a [RangeError], which
    is not modelled. *)
Definition max_with_0 (xs : list Z) : Z := foldr Z.max 0 xs.

(** [n + 1] on a number [n] that is an integer and not negative.  The sum
    is exact below 2^53; from there on the doubles are 2 apart and more, and
    the sum is rounded to the nearest of them, at a tie to the one of even
    mantissa: 2^53 + 1 is 2^53. *)
Definition plus_one (n : Z) : Z :=
  if n <? 2 ^ 53 then n + 1
  else if n <? 2 ^ 54 then (if n mod 4 =? 0 then n else n + 2)
  else n.

(** ** The data model ([src/types/index.ts]) *)

Module Category.
Record t := mk {
  id : Z;
  name : string;
  description : option string;
  created_at : Z
}.
End Category.

Module Product.
(** [created_at] is a required string of the interface; it is optional
    here because the serverless handler can store a record without it. *)
Record t := mk {
  id : Z;
  name : string;
  description : option string;
  category_id : Z;
  category_name : option string;
  purchase_price : Z;
  selling_price : Z;
  remaining_stock : Z;
  min_stock_level : Z;
  image_url : option string;
  created_at : option Z;
  updated_at : Z
}.

Definition with_category_name (cn : string) (p : t) : t :=
  mk (id p) (name p) (description p) (category_id p) (Some cn)
     (purchase_price p) (selling_price p) (remaining_stock p)
     (min_stock_level p) (image_url p) (created_at p) (updated_at p).
End Product.

(** [Omit<Product, 'id' | 'created_at' | 'updated_at' | 'category_name'>]:
    what a create request carries. *)
Module ProductData.
Record t := mk {
  name : string;
  description : optional string;
  category_id : Z;
  purchase_price : Z;
  selling_price : Z;
  remaining_stock : Z;
  min_stock_level : Z;
  image_url : optional string
}.

(** The request body after [JSON.stringify]. *)
Definition serialized (d : t) : t :=
  mk (name d) (through_json (description d)) (category_id d)
     (purchase_price d) (selling_price d) (remaining_stock d)
     (min_stock_level d) (through_json (image_url d)).
End ProductData.

(** [Omit<Product, 'created_at' | 'updated_at' | 'category_name'>]: what an
    update request carries, the fields above and the [id]. *)
Module ProductUpdate.
Record t := mk {
  id : Z;
  data : ProductData.t
}.

Definition serialized (u : t) : t :=
  mk (id u) (ProductData.serialized (data u)).
End ProductUpdate.

Record Pagination := {
  currentPage : Z;
  totalPages : Z;
  totalItems : Z;
  itemsPerPage : Z;
  hasNextPage : bool;
  hasPrevPage : bool
}.

(** A result object as the callers of the facade see it: [success] and the
    optional keys of the several operations. *)
Module Result.
Record t := mk {
  success : bool;
  categories : option (list Category.t);
  products : option (list Product.t);
  pagination : option Pagination;
  product : option Product.t;
  id : option Z;
  imageUrl : option string;
  error : option string
}.
End Result.

(** [{ success: true }] *)
Definition succeeded : Result.t :=
  Result.mk true None None None None None None None.

(** [{ success: false, error: msg }] *)
Definition failed (msg : string) : Result.t :=
  Result.mk false None None None None None None (Some msg).

(** [{ success: true, id: n }] *)
Definition created (n : Z) : Result.t :=
  Result.mk true None None None None (Some n) None None.

(** [{ success: true, categories }] *)
Definition listed_categories (cs : list Category.t) : Result.t :=
  Result.mk true (Some cs) None None None None None None.

(** [{ success: true, products }] *)
Definition listed_products (ps : list Product.t) : Result.t :=
  Result.mk true None (Some ps) None None None None None.

(** [{ success: true, imageUrl }] *)
Definition uploaded (url : string) : Result.t :=
  Result.mk true None None None None None (Some url) None.

(** One entry of a medium (a local-storage key, a file): nothing there (or
    the empty text, which is falsy), content that cannot be read back (the
    read or [JSON.parse] throws, with the error's message), or the
    serialization of a value.  The values are the collections that the code
    writes; JSON of another shape, which the code would take without a
    check, is not among them. *)
Inductive entry (A : Type) : Type :=
  | Missing
  | Corrupt (message : string)
  | Stored (a : A).
Arguments Missing {A}.
Arguments Corrupt {A} message.
Arguments Stored {A} a.

(** An uploaded file, as far as the code looks at it: what
  [FileReader.readAsDataURL] ends with ([None]: the reader's [onerror]). *)
Record File := {
  readAsDataURL : option string
}.

(** ** The offline backend ([src/services/api-offline.ts]) *)

Module Offline.

(** Local storage: the entries under [droguerie_products] and
    [droguerie_categories] (the settings key is never read or written). *)
Record storage := {
  PRODUCTS : entry (list Product.t);
  CATEGORIES : entry (list Category.t)
}.

(** The module's state: local storage, which outlives the page, and the two
    sample arrays, which live in memory and are handed out by reference as
    default values. *)
Record state := {
  localStorage : storage;
  SAMPLE_CATEGORIES : list Category.t;
  SAMPLE_PRODUCTS : list Product.t
}.

(** What one call finds around it: two readings of the clock and whether
    [localStorage.setItem] goes through. *)
Record Env := {
  now : Z;
  now' : Z;
  setItem_ok : bool
}.

Definition sample_category (t0 : Z) (id : Z) (name description : string)
  : Category.t :=
  Category.mk id name (Some description) t0.

Definition sample_product (t0 : Z) (id : Z) (name description : string)
    (category_id purchase_price selling_price remaining_stock
     min_stock_level : Z) (category_name : string) : Product.t :=
  Product.mk id name (Some description) category_id (Some category_name)
    purchase_price selling_price remaining_stock min_stock_level None
    (Some t0) t0.

(** The sample data, dated by the clock when the module is evaluated; the
    readings of the clock in the two array literals are taken as the one
    instant [t0]. *)
Definition sample_categories (t0 : Z) : list Category.t :=
  [ sample_category t0 1 "Droguerie"
      "Produits chimiques, adhésifs, mastics et composés spécialisés";
    sample_category t0 2 "Sanitaire"
      "Équipements de plomberie, tuyaux, robinets, chauffe-eau, accessoires de salle de bain";
    sample_category t0 3 "Peinture"
      "Peintures, apprêts, pinceaux, rouleaux, accessoires et outils de peinture";
    sample_category t0 4 "Quincaillerie"
      "Fixations, vis, boulons, écrous, charnières, serrures et composants métalliques";
    sample_category t0 5 "Outillage"
      "Outils à main, outils électriques, équipements de mesure et de sécurité";
    sample_category t0 6 "Électricité"
      "Composants électriques, câblage, interrupteurs, prises, luminaires" ].

Definition sample_products (t0 : Z) : list Product.t :=
  [ sample_product t0 1 "Colle PVC forte"
      "Adhésif haute résistance pour tuyaux PVC"
      1 2500 3500 50 10 "Droguerie";
    sample_product t0 2 "Mastic d'étanchéité universel"
      "Mastic étanche pour joints et fissures"
      1 1800 2800 75 15 "Droguerie";
    sample_product t0 3 "Robinet mélangeur chromé"
      "Robinet mélangeur pour cuisine et salle de bain"
      2 15000 22000 25 5 "Sanitaire";
    sample_product t0 4 "Tube PVC Ø100mm"
      "Tuyau PVC 100mm pour évacuation"
      2 4500 6500 100 20 "Sanitaire";
    sample_product t0 5 "Peinture murale blanche 10L"
      "Peinture acrylique blanche pour murs intérieurs"
      3 18000 25000 40 10 "Peinture";
    sample_product t0 6 "Rouleau de peinture professionnel"
      "Rouleau pour finitions lisses"
      3 1500 2500 80 20 "Peinture";
    sample_product t0 7 "Vis à bois 4x40mm (boîte 100)"
      "Vis pour menuiserie, tête fraisée"
      4 1250 1800 200 50 "Quincaillerie";
    sample_product t0 8 "Serrure de sécurité 3 points"
      "Serrure haute sécurité avec 3 clés"
      4 8500 12500 15 5 "Quincaillerie";
    sample_product t0 9 "Perceuse visseuse 18V"
      "Perceuse sans fil avec batterie et chargeur"
      5 28000 42000 12 3 "Outillage";
    sample_product t0 10 "Marteau de charpentier 500g"
      "Marteau avec manche bois"
      5 3500 5500 25 8 "Outillage";
    sample_product t0 11 "Câble électrique 2.5mm² (rouleau 100m)"
      "Câble pour installations électriques"
      6 8500 12000 20 5 "Électricité";
    sample_product t0 12 "Interrupteur simple blanc"
      "Interrupteur mural blanc"
      6 1200 1800 100 25 "Électricité" ].

(** [getStoredData(key, defaultValue)], given the entry under [key]: the
    parsed content, or [defaultValue] itself when there is none or reading
    it throws. *)
Definition getStoredData {A} (stored : entry A) (defaultValue : A) : A :=
  match stored with
  | Stored a => a
  | Missing | Corrupt _ => defaultValue
  end.

(** [setStoredData(key, data)], as the new entry under [key]: an error of
    [setItem] is logged and swallowed. *)
Definition setStoredData {A} (ok : bool) (stored : entry A) (data : A)
  : entry A :=
  if ok then Stored data else stored.

Definition set_products (ok : bool) (data : list Product.t) (s : state)
  : state :=
  {| localStorage :=
       {| PRODUCTS := setStoredData ok (PRODUCTS (localStorage s)) data;
          CATEGORIES := CATEGORIES (localStorage s) |};
     SAMPLE_CATEGORIES := SAMPLE_CATEGORIES s;
     SAMPLE_PRODUCTS := SAMPLE_PRODUCTS s |}.

Definition set_categories (ok : bool) (data : list Category.t) (s : state)
  : state :=
  {| localStorage :=
       {| PRODUCTS := PRODUCTS (localStorage s);
          CATEGORIES := setStoredData ok (CATEGORIES (localStorage s)) data |};
     SAMPLE_CATEGORIES := SAMPLE_CATEGORIES s;
     SAMPLE_PRODUCTS := SAMPLE_PRODUCTS s |}.

(** [initializeData()]: each collection that reads as empty is seeded. *)
Definition initializeData (ok_categories ok_products : bool) (s : state)
  : state :=
  let categories := getStoredData (CATEGORIES (localStorage s)) [] in
  let products := getStoredData (PRODUCTS (localStorage s)) [] in
  let s :=
    if (length categories =? 0)%nat
    then set_categories ok_categories (SAMPLE_CATEGORIES s) s else s in
  if (length products =? 0)%nat
  then set_products ok_products (SAMPLE_PRODUCTS s) s else s.

(** Evaluating the module on a page load at [t0], over the storage that the
    browser kept: the sample arrays are built, then [initializeData()]
    runs. *)
Definition load (t0 : Z) (ok_categories ok_products : bool) (ls : storage)
  : state :=
  initializeData ok_categories ok_products
    {| localStorage := ls;
       SAMPLE_CATEGORIES := sample_categories t0;
       SAMPLE_PRODUCTS := sample_products t0 |}.

Definition getCategories (s : state) : Result.t :=
  let categories :=
    getStoredData (CATEGORIES (localStorage s)) (SAMPLE_CATEGORIES s) in
  listed_categories categories.

(** [categories.find(c => c.id === product.category_id)?.name || 'Unknown'] *)
Definition category_name_of (categories : list Category.t) (p : Product.t)
  : string :=
  or_else
    (Category.name <$>
       List.find (λ c, Category.id c =? Product.category_id p) categories)
    "Unknown".

(** The search predicate of the listing. *)
Definition matches (searchLower : string) (p : Product.t) : bool :=
  includes (toLowerCase (Product.name p)) searchLower ||
  match Product.description p with
  | Some d => includes (toLowerCase d) searchLower
  | None => false
  end.

(** [product.category_id === Number.parseInt(category)] *)
Definition in_category (category : string) (p : Product.t) : bool :=
  match parseInt category with
  | Some n => Product.category_id p =? n
  | None => false
  end.

(** The comparator of the listing: newest first; a date that is missing
    makes the difference [NaN], which [sort] takes for 0.  A date that is
    there is one that [new Date] reads. *)
Definition by_created_at_desc (a b : Product.t) : Z :=
  match Product.created_at b, Product.created_at a with
  | Some tb, Some ta => tb - ta
  | _, _ => 0
  end.

(** The [products] of [getProducts(search, category)]. *)
Definition getProducts_list (search category : string) (s : state)
  : list Product.t :=
  let products :=
    getStoredData (PRODUCTS (localStorage s)) (SAMPLE_PRODUCTS s) in
  let categories :=
    getStoredData (CATEGORIES (localStorage s)) (SAMPLE_CATEGORIES s) in
  let products :=
    map (λ p, Product.with_category_name (category_name_of categories p) p)
      products in
  let products :=
    if truthy search
    then List.filter (matches (toLowerCase search)) products
    else products in
  let products :=
    if String.eqb category "all"
    then products
    else List.filter (in_category category) products in
  sort by_created_at_desc products.

Definition getProducts (search category : string) (s : state) : Result.t :=
  listed_products (getProducts_list search category s).

(** The record that [createProduct] builds. *)
Definition new_product (e : Env) (newId : Z) (d : ProductData.t)
  : Product.t :=
  Product.mk newId (ProductData.name d) (read (ProductData.description d))
    (ProductData.category_id d) (Some "")
    (ProductData.purchase_price d) (ProductData.selling_price d)
    (ProductData.remaining_stock d) (ProductData.min_stock_level d)
    (read (ProductData.image_url d)) (Some (now e)) (now' e).

(** [createProduct(productData)].  The array that is read is pushed to in
    place: when the read fell back to the default, that array is
    [SAMPLE_PRODUCTS] itself, which so grows in memory.  Within the limit of
    the spread nothing in the [try] throws, [setStoredData] catching its own
    error, so the failure of the [catch] is not among the answers. *)
Definition createProduct (e : Env) (productData : ProductData.t) (s : state)
  : Result.t * state :=
  let products :=
    getStoredData (PRODUCTS (localStorage s)) (SAMPLE_PRODUCTS s) in
  let newId := plus_one (max_with_0 (map Product.id products)) in
  let products := products ++ [new_product e newId productData] in
  let s :=
    match PRODUCTS (localStorage s) with
    | Stored _ => s
    | Missing | Corrupt _ =>
        {| localStorage := localStorage s;
           SAMPLE_CATEGORIES := SAMPLE_CATEGORIES s;
           SAMPLE_PRODUCTS := products |}
    end in
  (created newId, set_products (setItem_ok e) products s).

(** [{ ...old, ...productData, updated_at: now }] *)
Definition updated_product (e : Env) (old : Product.t) (u : ProductUpdate.t)
  : Product.t :=
  let d := ProductUpdate.data u in
  Product.mk (ProductUpdate.id u) (ProductData.name d)
    (spread (Product.description old) (ProductData.description d))
    (ProductData.category_id d) (Product.category_name old)
    (ProductData.purchase_price d) (ProductData.selling_price d)
    (ProductData.remaining_stock d) (ProductData.min_stock_level d)
    (spread (Product.image_url old) (ProductData.image_url d))
    (Product.created_at old) (now e).

(** [updateProduct(productData)] *)
Definition updateProduct (e : Env) (productData : ProductUpdate.t)
    (s : state) : Result.t * state :=
  let products := getStoredData (PRODUCTS (localStorage s)) [] in
  match list_find (λ p, Product.id p = ProductUpdate.id productData)
          products with
  | None => (failed "Product not found", s)
  | Some (index, old) =>
      let products :=
        <[index := updated_product e old productData]> products in
      (succeeded, set_products (setItem_ok e) products s)
  end.

(** [deleteProduct(id)] *)
Definition deleteProduct (e : Env) (id : Z) (s : state)
  : Result.t * state :=
  let products := getStoredData (PRODUCTS (localStorage s)) [] in
  let filteredProducts :=
    List.filter (λ p, negb (Product.id p =? id)) products in
  if (length products =? length filteredProducts)%nat
  then (failed "Product not found", s)
  else (succeeded, set_products (setItem_ok e) filteredProducts s).

(** [uploadImage(file)]: the data URL of the file, or the reader's error. *)
Definition uploadImage (file : File) : Result.t :=
  match readAsDataURL file with
  | Some imageUrl => uploaded imageUrl
  | None => failed "Failed to process image"
  end.

(** [deleteImage(imageUrl)]: nothing to delete. *)
Definition deleteImage (imageUrl : string) : Result.t := succeeded.

(** [exportData()], without the export date. *)
Definition exportData (s : state) : list Category.t * list Product.t :=
  (getStoredData (CATEGORIES (localStorage s)) [],
   getStoredData (PRODUCTS (localStorage s)) []).

(** [importData(data)] *)
Definition importData (ok_categories ok_products : bool)
    (categories : list Category.t) (products : list Product.t) (s : state)
  : state :=
  set_products ok_products products
    (set_categories ok_categories categories s).

(** [resetData()] *)
Definition resetData (ok_categories ok_products : bool) (s : state)
  : state :=
  set_products ok_products (SAMPLE_PRODUCTS s)
    (set_categories ok_categories (SAMPLE_CATEGORIES s) s).

End Offline.

(** ** The facade ([api]) *)

(** The requests that the facade sends: method, path and what it puts in the
    query string or the body. *)
Inductive Request : Type :=
  | GET_categories
  | GET_products (search category : option string) (page limit : Z)
      (sortBy sortOrder : string)
  | GET_product (id : Z)
  | POST_products (body : ProductData.t)
  | PUT_products (body : ProductUpdate.t)
  | DELETE_products (id : Z)
  | POST_upload (image : File)
  | DELETE_upload (imageUrl : string).

(** How a request ends for the facade: [await fetch(...)] throws inside
    the [try] (no connection), or it resolves, whatever the status of the
    response, and the body parses to an object.  A body that is not JSON
    makes the promise that the facade returns reject, past the [catch],
    which is no result of the facade; such answers are not among these. *)
Inductive fetched : Type :=
  | Threw
  | Json (body : Result.t).

Module Api.
Section Facade.

(** The network, as the answers it gives. *)
Variable fetch : Request → fetched.

Definition getCategories (s : Offline.state) : Result.t :=
  match fetch GET_categories with
  | Json body => body
  | Threw => Offline.getCategories s
  end.

(** [getProducts(search, category, page, limit, sortBy, sortOrder)]; the
    callers' defaults are the empty text, ['all'], 1, 50, ['created_at'] and
    ['DESC']. *)
Definition getProducts (search category : string) (page limit : Z)
    (sortBy sortOrder : string) (s : Offline.state) : Result.t :=
  let params :=
    GET_products
      (if truthy search then Some search else None)
      (if String.eqb category "all" then None else Some category)
      page limit sortBy sortOrder in
  match fetch params with
  | Json body => body
  | Threw =>
      let offlineResult := Offline.getProducts search category s in
      Result.mk (Result.success offlineResult) None
        (Result.products offlineResult)
        (Some {| currentPage := page;
                 totalPages := 1;
                 totalItems :=
                   Z.of_nat
                     (length (Offline.getProducts_list search category s));
                 itemsPerPage := limit;
                 hasNextPage := false;
                 hasPrevPage := false |})
        None None None None
  end.

Definition getProductById (id : Z) : Result.t :=
  match fetch (GET_product id) with
  | Json body => body
  | Threw => failed "Backend unavailable"
  end.

(** [createProduct(productData)]: the [catch] logs that it falls back and
    returns a failure of its own, with the id 0. *)
Definition createProduct (productData : ProductData.t) (s : Offline.state)
  : Result.t * Offline.state :=
  match fetch (POST_products (ProductData.serialized productData)) with
  | Json body => (body, s)
  | Threw =>
      (Result.mk false None None None None (Some 0) None
         (Some "Falling back to offline mode for create product"), s)
  end.

Definition updateProduct (e : Offline.Env) (productData : ProductUpdate.t)
    (s : Offline.state) : Result.t * Offline.state :=
  match fetch (PUT_products (ProductUpdate.serialized productData)) with
  | Json body => (body, s)
  | Threw => Offline.updateProduct e productData s
  end.

Definition deleteProduct (e : Offline.Env) (id : Z) (s : Offline.state)
  : Result.t * Offline.state :=
  match fetch (DELETE_products id) with
  | Json body => (body, s)
  | Threw => Offline.deleteProduct e id s
  end.

Definition uploadImage (file : File) : Result.t :=
  match fetch (POST_upload file) with
  | Json body => body
  | Threw => Offline.uploadImage file
  end.

Definition deleteImage (imageUrl : string) : Result.t :=
  match fetch (DELETE_upload imageUrl) with
  | Json body => body
  | Threw => Offline.deleteImage imageUrl
  end.

End Facade.
End Api.

(** A network on which every request fails in transport. *)
Definition unreachable : Request → fetched := λ _, Threw.

(** ** Servers *)

(** An HTTP answer: status and JSON body. *)
Record Response := {
  statusCode : Z;
  body : Result.t
}.

(** A computation that can throw. *)
Inductive attempt (A : Type) : Type :=
  | Throws (message : string)
  | Returns (a : A).
Arguments Throws {A} message.
Arguments Returns {A} a.

#[global] Instance attempt_bind : MBind attempt := λ A B k m,
  match m with
  | Throws message => Throws message
  | Returns a => k a
  end.

(** *** The JSON-file handler of the demo deployment *)

Module Serverless.

(** The two files under the data directory. *)
Record files := {
  PRODUCTS_FILE : entry (list Product.t);
  CATEGORIES_FILE : entry (list Category.t)
}.

(** What one invocation finds around it: two readings of the clock, and the
    error that [fs.writeFile] throws, if it does. *)
Record Env := {
  now : Z;
  now' : Z;
  writeFile_error : option string
}.

(** [fs.writeFile(file, JSON.stringify(data))] *)
Definition writeFile {A} (e : Env) (data : A) : attempt (entry A) :=
  match writeFile_error e with
  | Some message => Throws message
  | None => Returns (Stored data)
  end.

(** [JSON.parse(await fs.readFile(file, 'utf8'))] *)
Definition readFile {A} (file : entry A) : attempt A :=
  match file with
  | Missing => Throws "ENOENT: no such file or directory"
  | Corrupt message => Throws message
  | Stored a => Returns a
  end.

Definition default_category (t0 : Z) (id : Z) (name description : string)
  : Category.t :=
  Category.mk id name (Some description) t0.

Definition default_product (t0 : Z) (id : Z) (name description : string)
    (category_id purchase_price selling_price remaining_stock
     min_stock_level : Z) : Product.t :=
  Product.mk id name (Some description) category_id None
    purchase_price selling_price remaining_stock min_stock_level None
    (Some t0) t0.

Definition default_categories (t0 : Z) : list Category.t :=
  [ default_category t0 1 "Outils" "Outils de bricolage et construction";
    default_category t0 2 "Électricité" "Matériel électrique et éclairage";
    default_category t0 3 "Plomberie" "Équipements de plomberie";
    default_category t0 4 "Peinture" "Peintures et accessoires";
    default_category t0 5 "Jardinage" "Outils et produits de jardinage" ].

Definition default_products (t0 : Z) : list Product.t :=
  [ default_product t0 1 "Marteau 500g" "Marteau à panne fendue 500g"
      1 2500 3500 15 10;
    default_product t0 2 "Tournevis cruciforme" "Tournevis cruciforme PH2"
      1 800 1200 25 10;
    default_product t0 3 "Ampoule LED 9W" "Ampoule LED E27 9W blanc chaud"
      2 500 850 50 10;
    default_product t0 4 "Interrupteur simple"
      "Interrupteur va-et-vient blanc"
      2 350 600 30 10;
    default_product t0 5 "Robinet mélangeur"
      "Robinet mélangeur cuisine chromé"
      3 4500 7500 8 10;
    default_product t0 6 "Peinture blanc mat"
      "Peinture acrylique blanc mat 2.5L"
      4 1800 2800 12 10;
    default_product t0 7 "Sécateur" "Sécateur lames franches 20cm"
      5 1500 2200 6 10 ].

(** [initializeData()]: a file that cannot be accessed is written with the
    defaults. *)
Definition initializeData (e : Env) (fs : files) : attempt files :=
  categories ←
    match CATEGORIES_FILE fs with
    | Missing => writeFile e (default_categories (now e))
    | file => Returns file
    end;
  products ←
    match PRODUCTS_FILE fs with
    | Missing => writeFile e (default_products (now e))
    | file => Returns file
    end;
  Returns {| PRODUCTS_FILE := products; CATEGORIES_FILE := categories |}.

Definition getCategories (fs : files) : attempt (list Category.t) :=
  readFile (CATEGORIES_FILE fs).

(** [p.name.toLowerCase().includes(search.toLowerCase()) ||
     (p.description && p.description.toLowerCase().includes(...))] *)
Definition matches (search : string) (p : Product.t) : bool :=
  includes (toLowerCase (Product.name p)) (toLowerCase search) ||
  match Product.description p with
  | Some d => truthy d && includes (toLowerCase d) (toLowerCase search)
  | None => false
  end.

(** [categories.find(c => c.id === product.category_id)?.name || 'Aucune'] *)
Definition category_name_of (categories : list Category.t) (p : Product.t)
  : string :=
  or_else
    (Category.name <$>
       List.find (λ c, Category.id c =? Product.category_id p) categories)
    "Aucune".

Definition getProducts (search category : string) (fs : files)
  : attempt (list Product.t) :=
  products ← readFile (PRODUCTS_FILE fs);
  categories ← getCategories fs;
  let filtered :=
    map (λ p, Product.with_category_name (category_name_of categories p) p)
      products in
  let filtered :=
    if truthy search then List.filter (matches search) filtered
    else filtered in
  let filtered :=
    if String.eqb category "all"
    then filtered
    else List.filter (Offline.in_category category) filtered in
  Returns (sort Offline.by_created_at_desc filtered).

(** [saveProducts(products)] *)
Definition saveProducts (e : Env) (products : list Product.t) (fs : files)
  : attempt files :=
  file ← writeFile e products;
  Returns {| PRODUCTS_FILE := file; CATEGORIES_FILE := CATEGORIES_FILE fs |}.

(** [{ ...productData, id: newId, created_at: now, updated_at: now }] *)
Definition new_product (e : Env) (newId : Z) (d : ProductData.t)
  : Product.t :=
  Product.mk newId (ProductData.name d) (read (ProductData.description d))
    (ProductData.category_id d) None
    (ProductData.purchase_price d) (ProductData.selling_price d)
    (ProductData.remaining_stock d) (ProductData.min_stock_level d)
    (read (ProductData.image_url d)) (Some (now e)) (now' e).

(** [{ ...productData, updated_at: now }]: the keys of the request and the
    date of the update, nothing of the record that was there. *)
Definition replaced_product (e : Env) (u : ProductUpdate.t) : Product.t :=
  let d := ProductUpdate.data u in
  Product.mk (ProductUpdate.id u) (ProductData.name d)
    (read (ProductData.description d))
    (ProductData.category_id d) None
    (ProductData.purchase_price d) (ProductData.selling_price d)
    (ProductData.remaining_stock d) (ProductData.min_stock_level d)
    (read (ProductData.image_url d)) None (now e).

(** The body of the handler's [try], for the requests of the facade: the
    last segment of the path is the endpoint, and a path that ends in
    neither [categories] nor [products] finds none.  The spread of the
    creation is taken within the engine's limit, as in the offline
    backend. *)
Definition route (e : Env) (req : Request) (fs : files)
  : attempt (Response * files) :=
  match req with
  | GET_categories =>
      categories ← getCategories fs;
      Returns ({| statusCode := 200; body := listed_categories categories |},
               fs)
  | GET_products search category _ _ _ _ =>
      products ← getProducts (or_else search "") (or_else category "all") fs;
      Returns ({| statusCode := 200; body := listed_products products |}, fs)
  | POST_products productData =>
      products ← readFile (PRODUCTS_FILE fs);
      let newId := plus_one (max_with_0 (map Product.id products)) in
      let products := products ++ [new_product e newId productData] in
      fs ← saveProducts e products fs;
      Returns ({| statusCode := 200; body := created newId |}, fs)
  | PUT_products productData =>
      products ← readFile (PRODUCTS_FILE fs);
      fs ←
        match list_find (λ p, Product.id p = ProductUpdate.id productData)
                products with
        | Some (index, _) =>
            saveProducts e
              (<[index := replaced_product e productData]> products) fs
        | None => Returns fs
        end;
      Returns ({| statusCode := 200; body := succeeded |}, fs)
  | DELETE_products id =>
      products ← readFile (PRODUCTS_FILE fs);
      let filtered := List.filter (λ p, negb (Product.id p =? id)) products in
      fs ← saveProducts e filtered fs;
      Returns ({| statusCode := 200; body := succeeded |}, fs)
  | GET_product _ | POST_upload _ | DELETE_upload _ =>
      Returns ({| statusCode := 404; body := failed "Endpoint not found" |},
               fs)
  end.

(** [exports.handler(event)]: [None] when the invocation itself fails,
    which is when [initializeData()] throws outside the [try]. *)
Definition handler (e : Env) (req : Request) (fs : files)
  : option Response * files :=
  match initializeData e fs with
  | Throws _ => (None, fs)
  | Returns fs =>
      match route e req fs with
      | Returns (response, fs') => (Some response, fs')
      | Throws message =>
          (Some {| statusCode := 500; body := failed message |}, fs)
      end
  end.

(** The network when this handler serves it.  When the invocation itself
    fails, what the facade gets is the platform's to decide, not this
    code's: [crashed]. *)
Definition serve (crashed : fetched) (e : Env) (fs : files) (req : Request)
  : fetched :=
  match fst (handler e req fs) with
  | Some response => Json (body response)
  | None => crashed
  end.

End Serverless.

(** *** The relational server *)

Module Express.

(** [text LIKE pattern] of the database, under the case-insensitive
    collation of the tables: [%] stands for any run of characters, [_] for
    any one character, and a backslash takes the next character of the
    pattern literally.  Of the collation the folding of the letters of
    ASCII is modelled, not that of accents. *)
Fixpoint like (pattern : string) : string → bool :=
  match pattern with
  | EmptyString => λ text, negb (truthy text)
  | String "%" pattern' =>
      fix any_run (text : string) : bool :=
        like pattern' text ||
        match text with
        | EmptyString => false
        | String _ text' => any_run text'
        end
  | String "_" pattern' =>
      λ text,
        match text with
        | EmptyString => false
        | String _ text' => like pattern' text'
        end
  | String "\" (String c pattern') | String c pattern' =>
      λ text,
        match text with
        | EmptyString => false
        | String d text' =>
            Ascii.eqb (lower_ascii c) (lower_ascii d) && like pattern' text'
        end
  end.

(** [(p.name LIKE ? OR p.description LIKE ?)] with both parameters
    [`%${search}%`]; a description that is NULL matches nothing. *)
Definition search_condition (search : string) (p : Product.t) : bool :=
  like ("%" +:+ search +:+ "%") (Product.name p) ||
  match Product.description p with
  | Some d => like ("%" +:+ search +:+ "%") d
  | None => false
  end.

(** The rows that the listing's two queries select for a search, before
    the page query orders and slices them. *)
Definition searched (search : string) (rows : list Product.t)
  : list Product.t :=
  if truthy search then List.filter (search_condition search) rows else rows.

(** The pagination that [GET /api/products] answers for [total] matching
    rows. *)
Definition pagination_of (page limit total : Z) : Pagination :=
  let pageNum := Z.max 1 page in
  let limitNum := Z.min 100 (Z.max 1 limit) in
  let totalPages := (total + limitNum - 1) / limitNum in
  {| currentPage := pageNum;
     totalPages := totalPages;
     totalItems := total;
     itemsPerPage := limitNum;
     hasNextPage := pageNum <? totalPages;
     hasPrevPage := 1 <? pageNum |}.

(** How [dbQuery.execute] of an UPDATE ends: it throws, or it returns the
    number of rows that the statement changed. *)
Inductive executed : Type :=
  | Raised (message : string)
  | Changes (affectedRows : Z).

(** [PUT /api/products]: the answer, given how the UPDATE ended. *)
Definition put_products (result : executed) : Response :=
  match result with
  | Changes _ => {| statusCode := 200; body := succeeded |}
  | Raised message => {| statusCode := 500; body := failed message |}
  end.

End Express.

(** ** Vocabulary of the properties *)

(** A medium on which nothing was ever written. *)
Definition empty_storage : Offline.storage :=
  {| Offline.PRODUCTS := Missing; Offline.CATEGORIES := Missing |}.

Definition no_files : Serverless.files :=
  {| Serverless.PRODUCTS_FILE := Missing;
     Serverless.CATEGORIES_FILE := Missing |}.

(** What a second page load finds under a key, given whether the write of
    the first load (at [t0]) and of the second (at [t1]) went through. *)
Definition seeded_once {A} (sample : Z → A) (t0 t1 : Z) (ok0 ok1 : bool)
  : entry A :=
  if ok0 then Stored (sample t0)
  else if ok1 then Stored (sample t1)
  else Missing.

(** The ids of a collection are pairwise distinct. *)
Definition unique_ids (ps : list Product.t) : Prop :=
  NoDup (map Product.id ps).

(** A property of collections holds of the one that an entry stores. *)
Definition stored_all (P : list Product.t → Prop)
    (stored : entry (list Product.t)) : Prop :=
  match stored with
  | Stored ps => P ps
  | Missing | Corrupt _ => True
  end.

(** The products of the offline store as a listing reads them. *)
Definition live (s : Offline.state) : list Product.t :=
  Offline.getStoredData (Offline.PRODUCTS (Offline.localStorage s))
    (Offline.SAMPLE_PRODUCTS s).

(** A property of collections holds of the offline store: of the stored
    collection and of the sample array that reads fall back to. *)
Definition offline_all (P : list Product.t → Prop) (s : Offline.state)
  : Prop :=
  stored_all P (Offline.PRODUCTS (Offline.localStorage s))
  ∧ P (Offline.SAMPLE_PRODUCTS s).

(** Every product has its creation date. *)
Definition dated (ps : list Product.t) : Prop :=
  Forall (λ p, is_Some (Product.created_at p)) ps.

(** The collection is held in the order of its ids. *)
Definition ascending_ids (ps : list Product.t) : Prop :=
  StronglySorted Z.lt (map Product.id ps).

Definition dated_ascending (ps : list Product.t) : Prop :=
  dated ps ∧ ascending_ids ps.

(** The order of the offline listing: the newer product first, and of two
    products of one creation date the one of the smaller id first. *)
Definition newest_first_then_id (a b : Product.t) : Prop :=
  ∃ ta tb,
    Product.created_at a = Some ta
    ∧ Product.created_at b = Some tb
    ∧ (tb < ta ∨ (tb = ta ∧ Product.id a < Product.id b)).

(** [s] occurs in [t] when the case of letters is ignored: a piece of [t]
    is [s] up to the case of its letters. *)
Definition occurs_ignoring_case (s t : string) : Prop :=
  ∃ before piece after,
    t = before +:+ piece +:+ after ∧ toLowerCase piece = toLowerCase s.

(** The mutations of the offline store, each with what it finds around it. *)
Inductive operation : Type :=
  | Create (e : Offline.Env) (productData : ProductData.t)
  | Update (e : Offline.Env) (productData : ProductUpdate.t)
  | Delete (e : Offline.Env) (id : Z).

Definition apply (o : operation) (s : Offline.state) : Offline.state :=
  match o with
  | Create e productData => snd (Offline.createProduct e productData s)
  | Update e productData => snd (Offline.updateProduct e productData s)
  | Delete e id => snd (Offline.deleteProduct e id s)
  end.

Definition run (ops : list operation) (s : Offline.state) : Offline.state :=
  foldl (λ s o, apply o s) s ops.

(** The files after the handler has served a sequence of requests. *)
Definition serve_all (requests : list (Serverless.Env * Request))
    (fs : Serverless.files) : Serverless.files :=
  foldl (λ fs r, snd (Serverless.handler (fst r) (snd r) fs)) fs requests.

(** ** More of the relational server *)

Definition upper_ascii (c : ascii) : ascii :=
  let n := nat_of_ascii c in
  if ((97 <=? n) && (n <=? 122))%nat then ascii_of_nat (n - 32) else c.

(** [toUpperCase], on ASCII text: the letters a-z are folded, and nothing
    else is. *)
Fixpoint toUpperCase (s : string) : string :=
  match s with
  | EmptyString => EmptyString
  | String c s' => String (upper_ascii c) (toUpperCase s')
  end.

Module ExpressRoutes.

Definition validSortColumns : list string :=
  ["name"; "created_at"; "updated_at"; "remaining_stock"; "selling_price"].

(** [validSortColumns.includes(sortBy) ? sortBy : 'created_at'] *)
Definition sortColumn (sortBy : string) : string :=
  if existsb (String.eqb sortBy) validSortColumns then sortBy
  else "created_at".

(** [sortOrder.toUpperCase() === 'ASC' ? 'ASC' : 'DESC'] *)
Definition order (sortOrder : string) : string :=
  if String.eqb (toUpperCase sortOrder) "ASC" then "ASC" else "DESC".

(** What the listing appends to its page query. *)
Definition order_by (sortBy sortOrder : string) : string :=
  " ORDER BY p." +:+ sortColumn sortBy +:+ " " +:+ order sortOrder
  +:+ " LIMIT ? OFFSET ?".

Definition pageNum (page : Z) : Z := Z.max 1 page.

Definition limitNum (limit : Z) : Z := Z.min 100 (Z.max 1 limit).

Definition offset (page limit : Z) : Z := (pageNum page - 1) * limitNum limit.

(** [LIMIT ? OFFSET ?] with the parameters [limitNum] and [offset], on the
    rows that the query selects, in the order it gives them. *)
Definition page_rows {A} (page limit : Z) (ordered : list A) : list A :=
  take (Z.to_nat (limitNum limit)) (drop (Z.to_nat (offset page limit)) ordered).

(** A row of [SELECT p.*, c.name as category_name FROM products p LEFT JOIN
    categories c ON p.category_id = c.id]: the name is NULL when no category
    has the id. *)
Definition joined (categories : list Category.t) (p : Product.t)
  : Product.t :=
  Product.mk (Product.id p) (Product.name p) (Product.description p)
    (Product.category_id p)
    (Category.name <$>
       List.find (λ c, Category.id c =? Product.category_id p) categories)
    (Product.purchase_price p) (Product.selling_price p)
    (Product.remaining_stock p) (Product.min_stock_level p)
    (Product.image_url p) (Product.created_at p) (Product.updated_at p).

(** The rows of that query for [WHERE p.id = ?]. *)
Definition select_by_id (productId : Z) (products : list Product.t)
    (categories : list Category.t) : list Product.t :=
  map (joined categories)
    (List.filter (λ p, Product.id p =? productId) products).

(** [GET /api/products/:id], over the two tables; [query_error] is the error
    that [dbQuery.execute] throws, if it does. *)
Definition get_product (id : string) (query_error : option string)
    (products : list Product.t) (categories : list Category.t) : Response :=
  match parseInt id with
  | None => {| statusCode := 400; body := failed "Invalid product ID" |}
  | Some productId =>
      match query_error with
      | Some message => {| statusCode := 500; body := failed message |}
      | None =>
          match select_by_id productId products categories with
          | [] => {| statusCode := 404; body := failed "Product not found" |}
          | row :: _ =>
              {| statusCode := 200;
                 body := Result.mk true None None None (Some row) None None
                           None |}
          end
      end
  end.

End ExpressRoutes.

(** Text of ASCII characters, on which the case foldings and [parseInt]
    of this file are those of the language. *)
Fixpoint ascii_text (s : string) : bool :=
  match s with
  | EmptyString => true
  | String c s' => (nat_of_ascii c <? 128)%nat && ascii_text s'
  end.

(** A product whose name and description are ASCII text. *)
Definition ascii_product (p : Product.t) : Prop :=
  ascii_text (Product.name p) = true
  ∧ ∀ d, Product.description p = Some d → ascii_text d = true.

(** A text that [parseInt] reads as no number or as one below 2^53 in
    size. *)
Definition safe_numeral (s : string) : Prop :=
  ∀ n, parseInt s = Some n → Z.abs n < 2 ^ 53.

(** The ids of a collection are at most [b]. *)
Definition ids_upto (b : Z) (ps : list Product.t) : Prop :=
  0 ≤ b ∧ Forall (λ p, Product.id p ≤ b) ps.

Definition unique_upto (b : Z) (ps : list Product.t) : Prop :=
  ids_upto b ps ∧ unique_ids ps.

Definition dated_ascending_upto (b : Z) (ps : list Product.t) : Prop :=
  ids_upto b ps ∧ dated_ascending ps.

(** The product as a listing shows it, with the name of its category. *)
Definition named (s : Offline.state) (p : Product.t) : Product.t :=
  Product.with_category_name
    (Offline.category_name_of
       (Offline.getStoredData (Offline.CATEGORIES (Offline.localStorage s))
          (Offline.SAMPLE_CATEGORIES s)) p) p.

(** The products that a mutation of the offline store reads. *)
Definition stored_products (s : Offline.state) : list Product.t :=
  Offline.getStoredData (Offline.PRODUCTS (Offline.localStorage s)) [].

(** What the serverless handler takes for the category of a listing that
    the facade requests for [category]. *)
Definition requested_category (category : string) : string :=
  if truthy category then category else "all".

(** * Properties *)

(** ** Fail-over of the facade *)

(** On a network that always fails in transport, the facade answers what
    the offline backend answers, for every operation but the creation and
    the reading of one product. *)
Lemma facade_falls_back (e : Offline.Env) (s : Offline.state) :
  Api.getCategories unreachable s = Offline.getCategories s
  ∧ (∀ search category page limit sortBy sortOrder,
       Result.products
         (Api.getProducts unreachable search category page limit sortBy
            sortOrder s)
       = Result.products (Offline.getProducts search category s))
  ∧ (∀ u, Api.updateProduct unreachable e u s = Offline.updateProduct e u s)
  ∧ (∀ id, Api.deleteProduct unreachable e id s = Offline.deleteProduct e id s)
  ∧ (∀ file, Api.uploadImage unreachable file = Offline.uploadImage file)
  ∧ (∀ url, Api.deleteImage unreachable url = Offline.deleteImage url)
  ∧ (∀ id, Api.getProductById unreachable id = failed "Backend unavailable").
Proof. repeat split. Qed.

(** An answer of the server is returned as it is, whether it reports a
    success or an error of the application. *)
Lemma facade_passes_answers (fetch : Request → fetched) (e : Offline.Env)
    (s : Offline.state) (u : ProductUpdate.t) (answer : Result.t) :
  fetch (PUT_products (ProductUpdate.serialized u)) = Json answer →
  Api.updateProduct fetch e u s = (answer, s).
Proof. intros Hfetch. unfold Api.updateProduct. now rewrite Hfetch. Qed.

(** C1, at the creation of a product: when [fetch] throws, the facade does
    not return the result of the offline creation.  It answers a failure
    with the id 0 and leaves the offline store as it is, where the offline
    backend would have stored the product and answered its new id. *)
Theorem createProduct_does_not_fall_back (e : Offline.Env)
    (productData : ProductData.t) (s : Offline.state) :
  Api.createProduct unreachable productData s
  = (Result.mk false None None None None (Some 0) None
       (Some "Falling back to offline mode for create product"), s)
  ∧ Result.success (fst (Offline.createProduct e productData s)) = true
  ∧ fst (Api.createProduct unreachable productData s)
    ≠ fst (Offline.createProduct e productData s).
Proof.
  split; [reflexivity|]. split; [reflexivity|].
  cbn. intros Heq. discriminate Heq.
Qed.

(** ** Pagination of the fallback *)

(** C8: a listing that falls back to the offline backend comes with the
    pagination of a single page: the requested page as current page, one
    page in all, as many items as products are returned, the requested
    limit as page size, and no next or previous page. *)
Theorem fallback_pagination (search category : string) (page limit : Z)
    (sortBy sortOrder : string) (s : Offline.state) :
  let result :=
    Api.getProducts unreachable search category page limit sortBy sortOrder s
  in
  ∃ products,
    Result.products result = Some products
    ∧ products = Offline.getProducts_list search category s
    ∧ Result.success result = true
    ∧ Result.pagination result
      = Some {| currentPage := page;
                totalPages := 1;
                totalItems := Z.of_nat (length products);
                itemsPerPage := limit;
                hasNextPage := false;
                hasPrevPage := false |}.
Proof.
  intros result. exists (Offline.getProducts_list search category s).
  repeat split.
Qed.

(** When the products that match fill one page at most, and there is one at
    least, the relational server answers the first page with the very
    pagination of the fallback. *)
Lemma fallback_pagination_agrees (limit total : Z) :
  1 ≤ total ≤ limit → limit ≤ 100 →
  Express.pagination_of 1 limit total
  = {| currentPage := 1;
       totalPages := 1;
       totalItems := total;
       itemsPerPage := limit;
       hasNextPage := false;
       hasPrevPage := false |}.
Proof.
  intros Htotal Hlimit. unfold Express.pagination_of.
  rewrite (Z.max_r 1 limit), (Z.min_r 100 limit) by lia.
  assert (Hpages : (total + limit - 1) / limit = 1).
  { symmetry. apply (Z.div_unique _ _ 1 (total - 1)); lia. }
  now rewrite Hpages.
Qed.

(** ** Seeding *)

(** A collection that is stored and not empty is left alone. *)
Lemma initializeData_seeded (okc okp : bool) (c : Category.t)
    (cs : list Category.t) (p : Product.t) (ps : list Product.t)
    (sc : list Category.t) (sp : list Product.t) :
  let s :=
    {| Offline.localStorage :=
         {| Offline.PRODUCTS := Stored (p :: ps);
            Offline.CATEGORIES := Stored (c :: cs) |};
       Offline.SAMPLE_CATEGORIES := sc;
       Offline.SAMPLE_PRODUCTS := sp |} in
  Offline.initializeData okc okp s = s.
Proof. reflexivity. Qed.

(** Two page loads over a medium that starts empty, whatever the luck of
    each write: every key ends with the samples of one load, or with
    nothing, never with more. *)
Lemma load_twice (t0 t1 : Z) (okc0 okp0 okc1 okp1 : bool) :
  Offline.localStorage
    (Offline.load t1 okc1 okp1
       (Offline.localStorage (Offline.load t0 okc0 okp0 empty_storage)))
  = {| Offline.PRODUCTS :=
         seeded_once Offline.sample_products t0 t1 okp0 okp1;
       Offline.CATEGORIES :=
         seeded_once Offline.sample_categories t0 t1 okc0 okc1 |}.
Proof. destruct okc0, okp0, okc1, okp1; reflexivity. Qed.

(** C7: initialization is idempotent.  Over an empty medium the first run
    stores one copy of the default categories and of the default products;
    a second run, in the same session or on a later load, leaves the medium
    as the first left it; and a medium that already holds both collections
    is not changed at all.  The same holds of the files of the serverless
    handler. *)
Theorem initialization_idempotent (t0 t1 : Z) (okc okp : bool) :
  let once := Offline.load t0 true true empty_storage in
  Offline.localStorage once
  = {| Offline.PRODUCTS := Stored (Offline.sample_products t0);
       Offline.CATEGORIES := Stored (Offline.sample_categories t0) |}
  ∧ Offline.initializeData okc okp once = once
  ∧ Offline.localStorage (Offline.load t1 okc okp (Offline.localStorage once))
    = Offline.localStorage once
  ∧ (∀ c cs p ps,
       let seeded :=
         {| Offline.PRODUCTS := Stored (p :: ps);
            Offline.CATEGORIES := Stored (c :: cs) |} in
       Offline.localStorage (Offline.load t1 okc okp seeded) = seeded)
  ∧ (∀ e e',
       Serverless.writeFile_error e = None →
       let files_once :=
         {| Serverless.PRODUCTS_FILE :=
              Stored (Serverless.default_products (Serverless.now e));
            Serverless.CATEGORIES_FILE :=
              Stored (Serverless.default_categories (Serverless.now e)) |} in
       Serverless.initializeData e no_files = Returns files_once
       ∧ Serverless.initializeData e' files_once = Returns files_once).
Proof.
  intros once.
  split; [reflexivity|]. split; [reflexivity|]. split; [reflexivity|].
  split; [reflexivity|].
  intros e e' Hdisk files_once. split; [|reflexivity].
  unfold Serverless.initializeData, Serverless.writeFile; cbn.
  now rewrite Hdisk.
Qed.

Lemma initialization_idempotent_witness :
  let e := {| Serverless.now := 7; Serverless.now' := 7;
              Serverless.writeFile_error := None |} in
  Serverless.initializeData e
    {| Serverless.PRODUCTS_FILE :=
         Stored (Serverless.default_products 7);
       Serverless.CATEGORIES_FILE :=
         Stored (Serverless.default_categories 7) |}
  = Serverless.initializeData e no_files.
Proof.
  intros e.
  destruct (initialization_idempotent 0 1 true true)
    as (_ & _ & _ & _ & Hfiles).
  destruct (Hfiles e e eq_refl) as [Hfirst Hsecond].
  exact (eq_trans Hsecond (eq_sym Hfirst)).
Defined.

(** ** Uniqueness of ids *)

Lemma max_with_0_upper (xs : list Z) (x : Z) :
  In x xs → x ≤ max_with_0 xs.
Proof.
  unfold max_with_0. induction xs as [|y xs IH]; cbn; [tauto|].
  intros [->|Hin]; [lia|]. specialize (IH Hin). lia.
Qed.

Lemma max_with_0_bounded (b : Z) (ps : list Product.t) :
  ids_upto b ps → 0 ≤ max_with_0 (map Product.id ps) ≤ b.
Proof.
  intros [Hb Hps]. unfold max_with_0.
  induction Hps as [|p ps Hp Hps IH]; cbn; lia.
Qed.

(** Below 2^53 the sum is the exact one. *)
Lemma plus_one_exact (n : Z) : n < 2 ^ 53 → plus_one n = n + 1.
Proof.
  intros Hn. unfold plus_one.
  destruct (n <? 2 ^ 53) eqn:Hlt; [reflexivity|].
  apply Z.ltb_ge in Hlt. lia.
Qed.

(** While the ids are below 2^53, the id that a creation assigns is the id
    of no product. *)
Lemma next_id_fresh (b : Z) (ps : list Product.t) :
  ids_upto b ps → b < 2 ^ 53 →
  ¬ In (plus_one (max_with_0 (map Product.id ps))) (map Product.id ps).
Proof.
  intros Hupto Hb Hin. pose proof (max_with_0_bounded b ps Hupto) as Hmax.
  rewrite plus_one_exact in Hin by lia.
  apply max_with_0_upper in Hin. lia.
Qed.

Lemma ids_upto_weaken (b : Z) (ps : list Product.t) :
  ids_upto b ps → ids_upto (b + 1) ps.
Proof.
  intros [Hb Hps]. split; [lia|].
  eapply Forall_impl; [exact Hps|]. cbn. intros p Hp. lia.
Qed.

Lemma ids_upto_push (b : Z) (ps : list Product.t) (p : Product.t) :
  b < 2 ^ 53 →
  Product.id p = plus_one (max_with_0 (map Product.id ps)) →
  ids_upto b ps → ids_upto (b + 1) (ps ++ [p]).
Proof.
  intros Hb Hid Hupto. pose proof (max_with_0_bounded b ps Hupto) as Hmax.
  destruct (ids_upto_weaken b ps Hupto) as [Hb' Hps]. split; [exact Hb'|].
  apply Forall_app. split; [exact Hps|]. apply Forall_singleton.
  rewrite Hid, plus_one_exact by lia. lia.
Qed.

Lemma ids_upto_filter (b : Z) (f : Product.t → bool) (ps : list Product.t) :
  ids_upto b ps → ids_upto b (List.filter f ps).
Proof.
  intros [Hb Hps]. split; [exact Hb|]. apply Forall_forall.
  intros p Hp. apply list_elem_of_In, filter_In in Hp.
  apply (proj1 (Forall_forall _ _) Hps). apply list_elem_of_In. tauto.
Qed.

Lemma unique_ids_push (b : Z) (ps : list Product.t) (p : Product.t) :
  ids_upto b ps → b < 2 ^ 53 →
  Product.id p = plus_one (max_with_0 (map Product.id ps)) →
  unique_ids ps → unique_ids (ps ++ [p]).
Proof.
  unfold unique_ids. intros Hupto Hb Hid Hps. rewrite map_app. cbn.
  apply NoDup_app. split; [exact Hps|]. split.
  - intros x Hx Hx'. apply list_elem_of_In in Hx.
    apply list_elem_of_singleton in Hx'. subst x. rewrite Hid in Hx.
    exact (next_id_fresh b ps Hupto Hb Hx).
  - apply NoDup_singleton.
Qed.

Lemma unique_ids_filter (f : Product.t → bool) (ps : list Product.t) :
  unique_ids ps → unique_ids (List.filter f ps).
Proof.
  unfold unique_ids. induction ps as [|p ps IH]; cbn; [auto|].
  intros Hnd. apply NoDup_cons in Hnd. destruct Hnd as [Hp Hps].
  destruct (f p); cbn; [|auto].
  apply NoDup_cons. split; [|auto].
  intros Hin. apply Hp. apply list_elem_of_In in Hin.
  apply list_elem_of_In. apply in_map_iff in Hin.
  destruct Hin as (q & Hq & Hin). apply filter_In in Hin.
  apply in_map_iff. exists q. tauto.
Qed.

(** Writing at the index where [findIndex] found an id a record with that
    id leaves the ids as they are. *)
Lemma ids_insert_found (ps : list Product.t) (i : Z) (index : nat)
    (old new : Product.t) :
  list_find (λ p, Product.id p = i) ps = Some (index, old) →
  Product.id new = i →
  map Product.id (<[index := new]> ps) = map Product.id ps.
Proof.
  intros Hfind Hnew. apply list_find_Some in Hfind.
  destruct Hfind as (Hlookup & Hold & _).
  change (Product.id <$> <[index := new]> ps = Product.id <$> ps).
  rewrite list_fmap_insert. apply list_insert_id.
  rewrite list_lookup_fmap, Hlookup. cbn. congruence.
Qed.

Lemma ids_upto_insert (b : Z) (ps : list Product.t) (i : Z) (index : nat)
    (old new : Product.t) :
  list_find (λ p, Product.id p = i) ps = Some (index, old) →
  Product.id new = i →
  ids_upto b ps → ids_upto b (<[index := new]> ps).
Proof.
  intros Hfind Hnew [Hb Hps]. split; [exact Hb|].
  assert (Hids : Forall (λ n, n ≤ b) (map Product.id ps)).
  { apply Forall_forall. intros n Hn.
    apply list_elem_of_In, in_map_iff in Hn. destruct Hn as (p & <- & Hp).
    apply (proj1 (Forall_forall _ _) Hps). now apply list_elem_of_In. }
  rewrite <- (ids_insert_found _ _ _ _ _ Hfind Hnew) in Hids.
  apply Forall_forall. intros p Hp.
  apply (proj1 (Forall_forall _ _) Hids).
  apply list_elem_of_In, in_map. now apply list_elem_of_In.
Qed.

Lemma offline_all_set_products (Q : list Product.t → Prop) (ok : bool)
    (ps : list Product.t) (s : Offline.state) :
  Q ps → offline_all Q s → offline_all Q (Offline.set_products ok ps s).
Proof.
  intros Hps [Hstored Hsample]. split; [|exact Hsample].
  cbn. destruct ok; cbn; assumption.
Qed.

Lemma offline_all_live (Q : list Product.t → Prop) (s : Offline.state) :
  offline_all Q s → Q (live s).
Proof.
  intros [Hstored Hsample]. unfold live.
  destruct (Offline.PRODUCTS (Offline.localStorage s)); cbn; assumption.
Qed.

Lemma offline_all_read (Q : list Product.t → Prop) (s : Offline.state) :
  Q [] → offline_all Q s →
  Q (Offline.getStoredData (Offline.PRODUCTS (Offline.localStorage s)) []).
Proof.
  intros Hnil [Hstored _].
  destruct (Offline.PRODUCTS (Offline.localStorage s)); cbn; assumption.
Qed.

(** Invariants of the offline store.  [P b] is a property of the
    collections whose ids are at most [b]; when the three mutations keep it
    on the array they read, a creation raising the bound by one, every
    sequence of mutations keeps it on the store, whether the writes go
    through or not, as long as the bound stays within 2^53, where the new
    ids are exact. *)
Section Invariant.

Variable P : Z → list Product.t → Prop.

Hypothesis P_nil : ∀ b, 0 ≤ b → P b [].

Hypothesis P_weaken : ∀ b ps, P b ps → P (b + 1) ps.

Hypothesis P_push : ∀ b e d ps,
  b < 2 ^ 53 →
  P b ps →
  P (b + 1)
    (ps ++ [Offline.new_product e
              (plus_one (max_with_0 (map Product.id ps))) d]).

Hypothesis P_filter : ∀ b f ps, P b ps → P b (List.filter f ps).

Hypothesis P_update : ∀ b e u ps index old,
  P b ps →
  list_find (λ p, Product.id p = ProductUpdate.id u) ps = Some (index, old) →
  P b (<[index := Offline.updated_product e old u]> ps).

Lemma offline_all_weaken (b : Z) (s : Offline.state) :
  offline_all (P b) s → offline_all (P (b + 1)) s.
Proof.
  intros [Hstored Hsample]. split; [|now apply P_weaken].
  destruct (Offline.PRODUCTS (Offline.localStorage s)); cbn in *;
    try exact I. now apply P_weaken.
Qed.

Lemma apply_keeps (o : operation) (s : Offline.state) (b : Z) :
  0 ≤ b < 2 ^ 53 →
  offline_all (P b) s → offline_all (P (b + 1)) (apply o s).
Proof.
  intros Hb Hs. pose proof (offline_all_weaken b s Hs) as Hs'.
  destruct o as [e d|e u|e i]; cbn.
  - pose proof (offline_all_live (P b) s Hs) as Hlive. unfold live in Hlive.
    apply offline_all_set_products.
    + apply P_push; [lia|exact Hlive].
    + destruct Hs' as [Hstored Hsample].
      destruct (Offline.PRODUCTS (Offline.localStorage s)) eqn:Hentry;
        (split; [cbn; now rewrite ?Hentry|]); cbn in *;
        try assumption; apply P_push; (lia || assumption).
  - pose proof (offline_all_read (P b) s (P_nil b (proj1 Hb)) Hs) as Hread.
    unfold Offline.updateProduct.
    destruct (list_find _ _) as [[index old]|] eqn:Hfind; cbn; [|exact Hs'].
    apply offline_all_set_products; [|exact Hs'].
    apply P_weaken. now apply P_update.
  - pose proof (offline_all_read (P b) s (P_nil b (proj1 Hb)) Hs) as Hread.
    unfold Offline.deleteProduct.
    destruct (_ =? _)%nat; cbn; [exact Hs'|].
    apply offline_all_set_products; [|exact Hs'].
    apply P_weaken. now apply P_filter.
Qed.

Lemma run_keeps (ops : list operation) (s : Offline.state) (b : Z) :
  0 ≤ b →
  b + Z.of_nat (length ops) ≤ 2 ^ 53 →
  offline_all (P b) s →
  offline_all (P (b + Z.of_nat (length ops))) (run ops s).
Proof.
  revert s b. induction ops as [|o ops IH]; intros s b Hb Hbound Hs.
  - cbn. now rewrite Z.add_0_r.
  - change (run (o :: ops) s) with (run ops (apply o s)).
    cbn [length] in *.
    replace (b + Z.of_nat (S (length ops)))
      with ((b + 1) + Z.of_nat (length ops)) by lia.
    apply IH; [lia|lia|]. apply apply_keeps; [lia|exact Hs].
Qed.

End Invariant.

Lemma run_unique (ops : list operation) (s : Offline.state) (b : Z) :
  0 ≤ b →
  b + Z.of_nat (length ops) ≤ 2 ^ 53 →
  offline_all (unique_upto b) s →
  offline_all (unique_upto (b + Z.of_nat (length ops))) (run ops s).
Proof.
  apply (run_keeps unique_upto).
  - intros b' Hb'. split; [split; [exact Hb'|constructor]|apply NoDup_nil_2].
  - intros b' ps [Hupto Hunique]. split; [now apply ids_upto_weaken|
      exact Hunique].
  - intros b' e d ps Hb' [Hupto Hunique]. split.
    + now apply ids_upto_push.
    + now apply (unique_ids_push b').
  - intros b' f ps [Hupto Hunique]. split.
    + now apply ids_upto_filter.
    + now apply unique_ids_filter.
  - intros b' e u ps index old [Hupto Hunique] Hfind. split.
    + now apply (ids_upto_insert _ _ _ _ _ _ Hfind).
    + unfold unique_ids. now rewrite (ids_insert_found _ _ _ _ _ Hfind).
Qed.

(** The store that a page load leaves over an empty medium has unique
    ids, 12 at most. *)
Lemma load_unique (t0 : Z) (okc okp : bool) :
  offline_all (unique_upto 12) (Offline.load t0 okc okp empty_storage).
Proof.
  assert (Hsample : unique_upto 12 (Offline.sample_products t0)).
  { split; [split; [lia|]|].
    - repeat constructor; cbn; lia.
    - unfold unique_ids. cbn. apply (bool_decide_unpack _). vm_compute.
      exact I. }
  destruct okc, okp; (split; [cbn; try exact I|]); exact Hsample.
Qed.

(** So the live products of a store that starts from an empty medium have
    unique ids after any mutations, while the ids are exact. *)
Lemma unique_after_load (t0 : Z) (okc okp : bool) (ops : list operation) :
  12 + Z.of_nat (length ops) ≤ 2 ^ 53 →
  unique_ids (live (run ops (Offline.load t0 okc okp empty_storage))).
Proof.
  intros Hbound.
  apply (offline_all_live (unique_upto (12 + Z.of_nat (length ops)))).
  apply run_unique; [lia|exact Hbound|apply load_unique].
Qed.

Lemma initializeData_unique (e : Serverless.Env) (fs fs' : Serverless.files)
    (b : Z) :
  7 ≤ b →
  Serverless.initializeData e fs = Returns fs' →
  stored_all (unique_upto b) (Serverless.PRODUCTS_FILE fs) →
  stored_all (unique_upto b) (Serverless.PRODUCTS_FILE fs').
Proof.
  unfold Serverless.initializeData, Serverless.writeFile, mbind, attempt_bind.
  intros Hb Hinit Hfs.
  assert (Hdefault : unique_upto b
                       (Serverless.default_products (Serverless.now e))).
  { split; [split; [lia|]|].
    - repeat constructor; cbn; lia.
    - apply (bool_decide_unpack _). vm_compute. exact I. }
  destruct (Serverless.CATEGORIES_FILE fs), (Serverless.PRODUCTS_FILE fs),
    (Serverless.writeFile_error e);
    try discriminate Hinit; injection Hinit as <-; cbn; assumption.
Qed.

Lemma saveProducts_stored (Q : list Product.t → Prop) (e : Serverless.Env)
    (ps : list Product.t) (fs fs' : Serverless.files) :
  Serverless.saveProducts e ps fs = Returns fs' →
  Q ps → stored_all Q (Serverless.PRODUCTS_FILE fs').
Proof.
  unfold Serverless.saveProducts, Serverless.writeFile, mbind, attempt_bind.
  intros Hsave Hps. destruct (Serverless.writeFile_error e);
    [discriminate Hsave|]. now injection Hsave as <-.
Qed.

Lemma readFile_stored (Q : list Product.t → Prop) (fs : Serverless.files)
    (ps : list Product.t) :
  Serverless.readFile (Serverless.PRODUCTS_FILE fs) = Returns ps →
  stored_all Q (Serverless.PRODUCTS_FILE fs) → Q ps.
Proof.
  destruct (Serverless.PRODUCTS_FILE fs); cbn; intros Hread;
    try discriminate Hread. now injection Hread as ->.
Qed.

Lemma stored_all_weaken (b : Z) (file : entry (list Product.t)) :
  stored_all (unique_upto b) file → stored_all (unique_upto (b + 1)) file.
Proof.
  destruct file as [| |ps]; cbn; try exact (λ H, H).
  intros [Hupto Hunique]. split; [now apply ids_upto_weaken|exact Hunique].
Qed.

(** Each request leaves unique ids in the products file. *)
Lemma route_unique (e : Serverless.Env) (req : Request)
    (fs fs' : Serverless.files) (response : Response) (b : Z) :
  b < 2 ^ 53 →
  Serverless.route e req fs = Returns (response, fs') →
  stored_all (unique_upto b) (Serverless.PRODUCTS_FILE fs) →
  stored_all (unique_upto (b + 1)) (Serverless.PRODUCTS_FILE fs').
Proof.
  intros Hb Hroute Hfs. pose proof (stored_all_weaken b _ Hfs) as Hfs'.
  destruct req as [|search category page limit sortBy sortOrder|id|d|u|id
                  |image|url]; cbn in Hroute;
    unfold mbind, attempt_bind in Hroute.
  - destruct (Serverless.getCategories fs); [discriminate|].
    now injection Hroute as _ <-.
  - destruct (Serverless.getProducts _ _ fs); [discriminate|].
    now injection Hroute as _ <-.
  - now injection Hroute as _ <-.
  - destruct (Serverless.readFile _) as [|ps] eqn:Hread; [discriminate|].
    destruct (Serverless.saveProducts _ _ _) as [|fs1] eqn:Hsave;
      [discriminate|].
    injection Hroute as _ <-.
    apply (saveProducts_stored _ _ _ _ _ Hsave).
    destruct (readFile_stored _ fs ps Hread Hfs) as [Hupto Hunique]. split.
    + now apply ids_upto_push.
    + now apply (unique_ids_push b).
  - destruct (Serverless.readFile _) as [|ps] eqn:Hread; [discriminate|].
    destruct (readFile_stored _ fs ps Hread Hfs') as [Hupto Hunique].
    destruct (list_find _ ps) as [[index old]|] eqn:Hfind.
    + destruct (Serverless.saveProducts _ _ _) as [|fs1] eqn:Hsave;
        [discriminate|].
      injection Hroute as _ <-.
      apply (saveProducts_stored _ _ _ _ _ Hsave). split.
      * now apply (ids_upto_insert _ _ _ _ _ _ Hfind).
      * unfold unique_ids. now rewrite (ids_insert_found _ _ _ _ _ Hfind).
    + now injection Hroute as _ <-.
  - destruct (Serverless.readFile _) as [|ps] eqn:Hread; [discriminate|].
    destruct (readFile_stored _ fs ps Hread Hfs') as [Hupto Hunique].
    destruct (Serverless.saveProducts _ _ _) as [|fs1] eqn:Hsave;
      [discriminate|].
    injection Hroute as _ <-.
    apply (saveProducts_stored _ _ _ _ _ Hsave). split.
    + now apply ids_upto_filter.
    + now apply unique_ids_filter.
  - now injection Hroute as _ <-.
  - now injection Hroute as _ <-.
Qed.

Lemma handler_unique (e : Serverless.Env) (req : Request)
    (fs : Serverless.files) (b : Z) :
  7 ≤ b < 2 ^ 53 →
  stored_all (unique_upto b) (Serverless.PRODUCTS_FILE fs) →
  stored_all (unique_upto (b + 1))
    (Serverless.PRODUCTS_FILE (snd (Serverless.handler e req fs))).
Proof.
  intros Hb Hfs. unfold Serverless.handler.
  destruct (Serverless.initializeData e fs) as [|fs1] eqn:Hinit;
    [now apply stored_all_weaken|].
  pose proof (initializeData_unique _ _ _ b (proj1 Hb) Hinit Hfs) as Hfs1.
  destruct (Serverless.route e req fs1) as [|[response fs2]] eqn:Hroute;
    cbn; [now apply stored_all_weaken|].
  exact (route_unique _ _ _ _ _ b (proj2 Hb) Hroute Hfs1).
Qed.

Lemma serve_all_unique (requests : list (Serverless.Env * Request))
    (fs : Serverless.files) (b : Z) :
  7 ≤ b →
  b + Z.of_nat (length requests) ≤ 2 ^ 53 →
  stored_all (unique_upto b) (Serverless.PRODUCTS_FILE fs) →
  stored_all (unique_upto (b + Z.of_nat (length requests)))
    (Serverless.PRODUCTS_FILE (serve_all requests fs)).
Proof.
  revert fs b. induction requests as [|r requests IH];
    intros fs b Hb Hbound Hfs.
  - cbn. now rewrite Z.add_0_r.
  - change (serve_all (r :: requests) fs)
      with (serve_all requests
              (snd (Serverless.handler (fst r) (snd r) fs))).
    cbn [length] in *.
    replace (b + Z.of_nat (S (length requests)))
      with ((b + 1) + Z.of_nat (length requests)) by lia.
    apply IH; [lia|lia|]. apply handler_unique; [lia|exact Hfs].
Qed.

(** C6, at an id of 2^53: the largest id plus one is computed in doubles,
    where 2^53 + 1 is 2^53.  On an offline store into which one product
    with the id 9007199254740992 was imported, the ids are unique, a
    creation answers that id again, and the store then holds two live
    products with it.  The serverless handler computes the new id in the
    same way and does the same over a file with that product. *)
Theorem create_repeats_largest_id :
  let big := Product.mk 9007199254740992 "Pelle" None 5 None 900 1500 4 10
               None (Some 1000) 1000 in
  let d := ProductData.mk "Beche" Absent 5 1100 1700 2 10 Absent in
  let e := {| Offline.now := 2000; Offline.now' := 2000;
              Offline.setItem_ok := true |} in
  let s := Offline.importData true true (Offline.sample_categories 1000)
             [big] (Offline.load 1000 true true empty_storage) in
  let se := {| Serverless.now := 2000; Serverless.now' := 2000;
               Serverless.writeFile_error := None |} in
  let fs := {| Serverless.PRODUCTS_FILE := Stored [big];
               Serverless.CATEGORIES_FILE :=
                 Stored (Serverless.default_categories 1000) |} in
  unique_ids (live s)
  ∧ fst (Offline.createProduct e d s) = created 9007199254740992
  ∧ map Product.id (live (snd (Offline.createProduct e d s)))
    = [9007199254740992; 9007199254740992]
  ∧ ¬ unique_ids (live (snd (Offline.createProduct e d s)))
  ∧ fst (Serverless.handler se (POST_products d) fs)
    = Some {| statusCode := 200; body := created 9007199254740992 |}
  ∧ (map Product.id
       <$> match Serverless.PRODUCTS_FILE
                   (snd (Serverless.handler se (POST_products d) fs)) with
           | Stored ps => Some ps
           | _ => None
           end)
    = Some [9007199254740992; 9007199254740992].
Proof.
  intros big d e s se fs.
  split; [apply NoDup_singleton|]. split; [reflexivity|].
  split; [reflexivity|]. split; [|split; reflexivity].
  intros Hunique. apply NoDup_cons in Hunique. destruct Hunique as [Hin _].
  apply Hin. left.
Qed.

(** X28: while the ids stay within 2^53, where the new ids are exact, they
    stay unique.  On a store with unique ids that are at most [b], any sequence
    of creations, updates and deletions that keeps [b] plus its length
    within 2^53 leaves unique ids, whether the writes go through or not,
    and the id that a creation then answers is the id of no live product;
    the same holds of the products file of the serverless handler under any
    sequence of requests. *)
Theorem ids_unique_while_exact (s : Offline.state) (fs : Serverless.files)
    (b : Z) :
  7 ≤ b →
  offline_all (unique_upto b) s →
  stored_all (unique_upto b) (Serverless.PRODUCTS_FILE fs) →
  (∀ ops, b + Z.of_nat (length ops) ≤ 2 ^ 53 →
          unique_ids (live (run ops s)))
  ∧ (∀ ops e productData newId,
       b + Z.of_nat (length ops) < 2 ^ 53 →
       Result.id (fst (Offline.createProduct e productData (run ops s)))
       = Some newId →
       newId ∉ map Product.id (live (run ops s)))
  ∧ (∀ requests,
       b + Z.of_nat (length requests) ≤ 2 ^ 53 →
       stored_all unique_ids (Serverless.PRODUCTS_FILE (serve_all requests fs)))
  ∧ (∀ requests e productData products response newId,
       b + Z.of_nat (length requests) < 2 ^ 53 →
       Serverless.PRODUCTS_FILE (serve_all requests fs) = Stored products →
       fst (Serverless.handler e (POST_products productData)
              (serve_all requests fs)) = Some response →
       Result.id (body response) = Some newId →
       newId ∉ map Product.id products).
Proof.
  intros Hb Hs Hfs. split; [|split; [|split]].
  - intros ops Hbound.
    apply (offline_all_live (unique_upto (b + Z.of_nat (length ops)))).
    apply run_unique; [lia|exact Hbound|exact Hs].
  - intros ops e productData newId Hbound Hid. cbn in Hid.
    injection Hid as <-.
    assert (Hrun : unique_upto (b + Z.of_nat (length ops))
                     (live (run ops s))).
    { apply (offline_all_live (unique_upto (b + Z.of_nat (length ops)))).
      apply run_unique; [lia|lia|exact Hs]. }
    intros Hin. apply list_elem_of_In in Hin.
    exact (next_id_fresh _ _ (proj1 Hrun) Hbound Hin).
  - intros requests Hbound.
    pose proof (serve_all_unique requests fs b Hb Hbound Hfs) as Hserved.
    destruct (Serverless.PRODUCTS_FILE (serve_all requests fs));
      [exact I|exact I|]. exact (proj2 Hserved).
  - intros requests e productData products response newId Hbound Hfile.
    pose proof (serve_all_unique requests fs b Hb ltac:(lia) Hfs) as Hserved.
    rewrite Hfile in Hserved. cbn in Hserved.
    destruct Hserved as [Hupto _].
    unfold Serverless.handler, Serverless.initializeData,
      Serverless.route, Serverless.saveProducts, Serverless.writeFile,
      mbind, attempt_bind.
    rewrite Hfile. cbn.
    destruct (Serverless.CATEGORIES_FILE (serve_all requests fs)),
      (Serverless.writeFile_error e); cbn;
      intros Hresponse Hid; try discriminate Hresponse;
      injection Hresponse as <-; try discriminate Hid;
      cbn in Hid; injection Hid as <-;
      intros Hin; apply list_elem_of_In in Hin;
      exact (next_id_fresh _ _ Hupto Hbound Hin).
Qed.

Lemma ids_unique_while_exact_witness :
  let s := Offline.load 1000 true false empty_storage in
  let e := {| Offline.now := 2000; Offline.now' := 2001;
              Offline.setItem_ok := true |} in
  let d := ProductData.mk "Zed" Absent 1 100 200 3 4 Undefined in
  unique_ids (live (run [Create e d; Delete e 3; Create e d] s)).
Proof.
  intros s e d.
  assert (Hb : 7 ≤ 12) by lia.
  assert (Hs : offline_all (unique_upto 12) s).
  { split; [exact I|]. split; [split; [lia|]|].
    - repeat constructor; cbn; lia.
    - apply (bool_decide_unpack _). vm_compute. exact I. }
  assert (Hfiles : stored_all (unique_upto 12)
                     (Serverless.PRODUCTS_FILE no_files)) by exact I.
  apply (proj1 (ids_unique_while_exact s no_files 12 Hb Hs Hfiles)).
  vm_compute. discriminate.
Defined.

(** ** Updates *)

Lemma list_find_unknown (i : Z) (ps : list Product.t) :
  i ∉ map Product.id ps →
  list_find (λ p, Product.id p = i) ps = None.
Proof.
  intros Hi. apply list_find_None. apply Forall_forall.
  intros p Hp Hid. apply Hi. apply list_elem_of_In. apply in_map_iff.
  exists p. split; [exact Hid|]. now apply list_elem_of_In.
Qed.

Lemma list_find_known (i : Z) (ps : list Product.t) :
  i ∈ map Product.id ps →
  ∃ index old,
    list_find (λ p, Product.id p = i) ps = Some (index, old)
    ∧ Product.id old = i.
Proof.
  intros Hi. apply list_elem_of_In, in_map_iff in Hi.
  destruct Hi as (p & Hid & Hp). apply list_elem_of_In in Hp.
  destruct (list_find (λ p, Product.id p = i) ps) as [[index old]|] eqn:Hfind.
  - exists index, old. split; [reflexivity|].
    apply list_find_Some in Hfind. tauto.
  - apply list_find_None in Hfind.
    exfalso. exact (proj1 (Forall_forall _ _) Hfind p Hp Hid).
Qed.

(** An update whose id no product has: the offline backend, which serves
    it when the request fails in transport, reports [Product not found];
    the serverless handler answers a success and leaves its file as it is,
    and the facade returns that answer as it is. *)
Lemma unknown_id_update_answers (e : Offline.Env) (se : Serverless.Env)
    (crashed : fetched) (u : ProductUpdate.t) (s : Offline.state)
    (cs : list Category.t) (ps : list Product.t) :
  let fs := {| Serverless.PRODUCTS_FILE := Stored ps;
               Serverless.CATEGORIES_FILE := Stored cs |} in
  ProductUpdate.id u
    ∉ map Product.id
        (Offline.getStoredData (Offline.PRODUCTS (Offline.localStorage s))
           []) →
  ProductUpdate.id u ∉ map Product.id ps →
  Api.updateProduct unreachable e u s = (failed "Product not found", s)
  ∧ Serverless.handler se (PUT_products (ProductUpdate.serialized u)) fs
    = (Some {| statusCode := 200; body := succeeded |}, fs)
  ∧ Api.updateProduct (Serverless.serve crashed se fs) e u s
    = (succeeded, s).
Proof.
  intros fs Hoffline Hfile.
  assert (Hhandler :
            Serverless.handler se
              (PUT_products (ProductUpdate.serialized u)) fs
            = (Some {| statusCode := 200; body := succeeded |}, fs)).
  { unfold Serverless.handler, Serverless.route. cbn.
    unfold mbind, attempt_bind.
    change (ProductUpdate.id (ProductUpdate.serialized u))
      with (ProductUpdate.id u).
    now rewrite (list_find_unknown _ _ Hfile). }
  split; [|split; [exact Hhandler|]].
  - cbn. unfold Offline.updateProduct.
    now rewrite (list_find_unknown _ _ Hoffline).
  - unfold Api.updateProduct, Serverless.serve. now rewrite Hhandler.
Qed.

(** C2, on an update with the id 99, which no product has: the serverless
    handler answers the status 200 and a success and leaves its products
    file as it is, and the facade returns that answer to its caller as it
    is, so the caller is told that the update succeeded.  The offline
    backend, which serves the same update when the request fails in
    transport, reports [Product not found]. *)
Theorem update_of_unknown_id_succeeds :
  let e := {| Offline.now := 2000; Offline.now' := 2000;
              Offline.setItem_ok := true |} in
  let se := {| Serverless.now := 2000; Serverless.now' := 2000;
               Serverless.writeFile_error := None |} in
  let fs := {| Serverless.PRODUCTS_FILE :=
                 Stored (Serverless.default_products 1000);
               Serverless.CATEGORIES_FILE :=
                 Stored (Serverless.default_categories 1000) |} in
  let u := ProductUpdate.mk 99
             (ProductData.mk "Pelle" (Given "Pelle ronde") 5 900 1500 4 10
                Absent) in
  let s := Offline.load 1000 true true empty_storage in
  (99 ∉ map Product.id (Serverless.default_products 1000))
  ∧ (99 ∉ map Product.id (live s))
  ∧ Serverless.handler se (PUT_products (ProductUpdate.serialized u)) fs
    = (Some {| statusCode := 200; body := succeeded |}, fs)
  ∧ (∀ crashed,
       Api.updateProduct (Serverless.serve crashed se fs) e u s
       = (succeeded, s))
  ∧ Api.updateProduct unreachable e u s = (failed "Product not found", s).
Proof.
  intros e se fs u s.
  split; [apply (bool_decide_unpack _); vm_compute; exact I|].
  split; [apply (bool_decide_unpack _); vm_compute; exact I|].
  split; [reflexivity|]. split; [intros crashed|]; reflexivity.
Qed.

(** The offline update, when its write goes through: the record at the
    index found carries the values of the request, the date of the update,
    and the id and the creation date that it had. *)
Lemma offline_update_stored (e : Offline.Env) (u : ProductUpdate.t)
    (s : Offline.state) (ps : list Product.t) (index : nat)
    (old : Product.t) :
  Offline.setItem_ok e = true →
  Offline.PRODUCTS (Offline.localStorage s) = Stored ps →
  list_find (λ p, Product.id p = ProductUpdate.id u) ps
  = Some (index, old) →
  let s' := snd (Offline.updateProduct e u s) in
  ∃ new,
    Offline.PRODUCTS (Offline.localStorage s')
    = Stored (<[index := new]> ps)
    ∧ <[index := new]> ps !! index = Some new
    ∧ Product.id new = Product.id old
    ∧ Product.created_at new = Product.created_at old
    ∧ Product.updated_at new = Offline.now e
    ∧ Product.name new = ProductData.name (ProductUpdate.data u)
    ∧ Product.category_id new
      = ProductData.category_id (ProductUpdate.data u)
    ∧ Product.purchase_price new
      = ProductData.purchase_price (ProductUpdate.data u)
    ∧ Product.selling_price new
      = ProductData.selling_price (ProductUpdate.data u)
    ∧ Product.remaining_stock new
      = ProductData.remaining_stock (ProductUpdate.data u)
    ∧ Product.min_stock_level new
      = ProductData.min_stock_level (ProductUpdate.data u)
    ∧ Product.description new
      = spread (Product.description old)
          (ProductData.description (ProductUpdate.data u))
    ∧ Product.image_url new
      = spread (Product.image_url old)
          (ProductData.image_url (ProductUpdate.data u)).
Proof.
  intros Hok Hstored Hfind s'. subst s'.
  unfold Offline.updateProduct. rewrite Hstored. cbn. rewrite Hfind. cbn.
  rewrite Hok, Hstored. cbn.
  exists (Offline.updated_product e old u).
  apply list_find_Some in Hfind. destruct Hfind as (Hlookup & Hid & _).
  split; [reflexivity|]. split.
  { apply list_lookup_insert_eq. now apply lookup_lt_Some in Hlookup. }
  split; [cbn; congruence|]. repeat split.
Qed.

(** C3, at the serverless handler: an update of the product 1 of the
    default set stores a record that has lost its creation date, and so
    does the listing that reads it back, where the record had the date of
    the seeding before. *)
Theorem serverless_update_drops_created_at :
  let e0 := {| Serverless.now := 1000; Serverless.now' := 1000;
               Serverless.writeFile_error := None |} in
  let e1 := {| Serverless.now := 2000; Serverless.now' := 2000;
               Serverless.writeFile_error := None |} in
  let all := GET_products None None 1 50 "created_at" "DESC" in
  let u := ProductUpdate.mk 1
             (ProductData.mk "Marteau 600g" (Given "Marteau 600g") 1
                2600 3600 14 10 Absent) in
  let fs0 := snd (Serverless.handler e0 all no_files) in
  let fs1 :=
    snd (Serverless.handler e1 (PUT_products (ProductUpdate.serialized u))
           fs0) in
  let read_back fs :=
    match fst (Serverless.handler e1 all fs) with
    | Some response =>
        List.find (λ p, Product.id p =? 1)
          (default [] (Result.products (body response)))
    | None => None
    end in
  fst (Serverless.handler e1 (PUT_products (ProductUpdate.serialized u)) fs0)
  = Some {| statusCode := 200; body := succeeded |}
  ∧ Product.created_at <$> read_back fs0 = Some (Some 1000)
  ∧ Product.created_at <$> read_back fs1 = Some None
  ∧ Product.name <$> read_back fs1 = Some "Marteau 600g"
  ∧ Product.updated_at <$> read_back fs1 = Some 2000.
Proof. repeat split. Qed.

(** ** A medium that cannot be read back *)

(** The serverless handler answers a listing over an unparsable products
    file with a failure, not with the default products. *)
Lemma serverless_corrupt_file_fails :
  let e := {| Serverless.now := 2000; Serverless.now' := 2000;
              Serverless.writeFile_error := None |} in
  let fs := {| Serverless.PRODUCTS_FILE := Corrupt "Unexpected end of JSON input";
               Serverless.CATEGORIES_FILE :=
                 Stored (Serverless.default_categories 1000) |} in
  Serverless.handler e (GET_products None None 1 50 "created_at" "DESC") fs
  = (Some {| statusCode := 500;
             body := failed "Unexpected end of JSON input" |}, fs)
  ∧ Result.success
      (body
         {| statusCode := 500;
            body := failed "Unexpected end of JSON input" |}) = false.
Proof. split; reflexivity. Qed.

(** C9, as the code has it.  In the local-storage store a collection that
    cannot be read back is replaced, for [getCategories] and [getProducts]
    and so for the fallback of the facade, by the sample array in memory,
    and the result is a normal one; [exportData] gives the empty collection
    for it; the next initialization stores the samples over it.  In the
    JSON-file store a read of an unparsable file is answered by a failure
    with the status 500 and the message of the error, and the file stays as
    it is. *)
Theorem unreadable_medium (message : string)
    (categories : entry (list Category.t))
    (products : entry (list Product.t))
    (sc : list Category.t) (sp : list Product.t) :
  let with_storage ls :=
    {| Offline.localStorage := ls;
       Offline.SAMPLE_CATEGORIES := sc;
       Offline.SAMPLE_PRODUCTS := sp |} in
  let bad_products :=
    with_storage
      {| Offline.PRODUCTS := Corrupt message;
         Offline.CATEGORIES := categories |} in
  let bad_categories :=
    with_storage
      {| Offline.PRODUCTS := products;
         Offline.CATEGORIES := Corrupt message |} in
  (∀ search category,
     Offline.getProducts search category bad_products
     = Offline.getProducts search category
         (with_storage
            {| Offline.PRODUCTS := Stored sp;
               Offline.CATEGORIES := categories |})
     ∧ Result.success (Offline.getProducts search category bad_products)
       = true
     ∧ ∀ page limit sortBy sortOrder,
         Result.products
           (Api.getProducts unreachable search category page limit sortBy
              sortOrder bad_products)
         = Result.products (Offline.getProducts search category bad_products))
  ∧ Offline.getCategories bad_categories = listed_categories sc
  ∧ Api.getCategories unreachable bad_categories = listed_categories sc
  ∧ snd (Offline.exportData bad_products) = []
  ∧ fst (Offline.exportData bad_categories) = []
  ∧ (∀ okc,
       Offline.PRODUCTS
         (Offline.localStorage (Offline.initializeData okc true bad_products))
       = Stored sp)
  ∧ (∀ okp,
       Offline.CATEGORIES
         (Offline.localStorage
            (Offline.initializeData true okp bad_categories))
       = Stored sc)
  ∧ (∀ e search category page limit sortBy sortOrder cats,
       let fs := {| Serverless.PRODUCTS_FILE := Corrupt message;
                    Serverless.CATEGORIES_FILE := Stored cats |} in
       Serverless.handler e
         (GET_products search category page limit sortBy sortOrder) fs
       = (Some {| statusCode := 500; body := failed message |}, fs))
  ∧ (∀ e prods,
       let fs := {| Serverless.PRODUCTS_FILE := Stored prods;
                    Serverless.CATEGORIES_FILE := Corrupt message |} in
       Serverless.handler e GET_categories fs
       = (Some {| statusCode := 500; body := failed message |}, fs)).
Proof.
  intros with_storage bad_products bad_categories.
  split; [intros search category; repeat split|].
  split; [reflexivity|]. split; [reflexivity|]. split; [reflexivity|].
  split; [reflexivity|].
  split.
  { intros okc. subst bad_products with_storage. cbn.
    destruct categories as [| |cs]; cbn; try reflexivity.
    now destruct (length cs =? 0)%nat. }
  split.
  { intros okp. subst bad_categories with_storage. cbn.
    destruct products as [| |ps]; cbn; try reflexivity.
    unfold Offline.initializeData. cbn.
    now destruct (length ps =? 0)%nat, okp. }
  split; reflexivity.
Qed.

(** ** Writes that do not go through *)

Lemma set_products_failed (ps : list Product.t) (s : Offline.state) :
  Offline.set_products false ps s = s.
Proof. now destruct s as [[stored_products stored_categories] sc sp]. Qed.

Lemma filter_length_le {A} (f : A → bool) (l : list A) :
  (length (List.filter f l) ≤ length l)%nat.
Proof.
  induction l as [|x l IH]; cbn; [lia|]. destruct (f x); cbn; lia.
Qed.

(** Filtering out an id that is there shortens the list. *)
Lemma filter_known_shorter (i : Z) (ps : list Product.t) :
  i ∈ map Product.id ps →
  (length ps
   =? length (List.filter (λ p, negb (Product.id p =? i)%Z) ps))%nat
  = false.
Proof.
  intros Hi. apply Nat.eqb_neq. apply list_elem_of_In in Hi.
  induction ps as [|p ps IH]; cbn in *; [tauto|].
  destruct (Product.id p =? i) eqn:Heq; cbn.
  - pose proof (filter_length_le (λ p, negb (Product.id p =? i)) ps). lia.
  - destruct Hi as [Hp|Hin]; [lia|]. specialize (IH Hin). lia.
Qed.

(** A creation whose write fails, on a store whose products were never
    stored, is seen by the next listing: the new product was pushed to the
    sample array that the listing falls back to. *)
Lemma lost_write_shows_in_listing :
  let s := Offline.load 1000 false false empty_storage in
  let e := {| Offline.now := 2000; Offline.now' := 2000;
              Offline.setItem_ok := false |} in
  let d := ProductData.mk "Pelle" (Given "Pelle ronde") 5 900 1500 4 10
             Absent in
  let s' := snd (Offline.createProduct e d s) in
  fst (Offline.createProduct e d s) = created 13
  ∧ Offline.localStorage s' = Offline.localStorage s
  ∧ map Product.id (Offline.getProducts_list "" "all" s)
    = [1; 2; 3; 4; 5; 6; 7; 8; 9; 10; 11; 12]
  ∧ map Product.id (Offline.getProducts_list "" "all" s')
    = [13; 1; 2; 3; 4; 5; 6; 7; 8; 9; 10; 11; 12].
Proof. repeat split. Qed.

(** C10, as the code has it: when [setItem] throws, the offline mutations
    answer what they answer when it does not, a success (with the new id
    for a creation) for a creation and for an update or a deletion of a
    product that is there, and local storage is unchanged.  After an update
    or a deletion the whole state is unchanged, and so is every later read.
    After a creation it is when the products entry holds a stored
    collection; when the entry is missing or unreadable, the new product has
    been pushed to the sample array in memory, which the later listings fall
    back to. *)
Theorem lost_write (e : Offline.Env) (s : Offline.state) :
  Offline.setItem_ok e = false →
  (∀ productData,
     let newId := plus_one (max_with_0 (map Product.id (live s))) in
     let s' := snd (Offline.createProduct e productData s) in
     fst (Offline.createProduct e productData s) = created newId
     ∧ Offline.localStorage s' = Offline.localStorage s
     ∧ (∀ ps, Offline.PRODUCTS (Offline.localStorage s) = Stored ps → s' = s)
     ∧ ((∀ ps, Offline.PRODUCTS (Offline.localStorage s) ≠ Stored ps) →
        live s' = live s ++ [Offline.new_product e newId productData]))
  ∧ (∀ productData,
       ProductUpdate.id productData
         ∈ map Product.id
             (Offline.getStoredData
                (Offline.PRODUCTS (Offline.localStorage s)) []) →
       Offline.updateProduct e productData s = (succeeded, s))
  ∧ (∀ id,
       id ∈ map Product.id
              (Offline.getStoredData
                 (Offline.PRODUCTS (Offline.localStorage s)) []) →
       Offline.deleteProduct e id s = (succeeded, s)).
Proof.
  intros Hfail. split; [|split].
  - intros productData newId s'. subst s' newId.
    unfold Offline.createProduct, live. rewrite Hfail. cbn.
    rewrite set_products_failed.
    destruct s as [[stored_products stored_categories] sc sp]; cbn.
    destruct stored_products as [|message|ps]; cbn; repeat split;
      try (intros ps' Hstored; discriminate Hstored).
    intros Hnot. exfalso. exact (Hnot ps eq_refl).
  - intros productData Hknown.
    destruct (list_find_known _ _ Hknown) as (index & old & Hfind & _).
    unfold Offline.updateProduct. rewrite Hfind, Hfail.
    now rewrite set_products_failed.
  - intros id Hknown. unfold Offline.deleteProduct.
    rewrite (filter_known_shorter _ _ Hknown), Hfail.
    now rewrite set_products_failed.
Qed.

Lemma lost_write_witness :
  let s := Offline.load 1000 true true empty_storage in
  let e := {| Offline.now := 2000; Offline.now' := 2000;
              Offline.setItem_ok := false |} in
  Offline.deleteProduct e 3 s = (succeeded, s).
Proof.
  intros s e.
  assert (Hknown :
            3 ∈ map Product.id
                  (Offline.getStoredData
                     (Offline.PRODUCTS (Offline.localStorage s)) [])).
  { apply (bool_decide_unpack _). vm_compute. exact I. }
  exact (proj2 (proj2 (lost_write e s eq_refl)) 3 Hknown).
Defined.

(** ** The order of a listing *)

Lemma Forall_insert_by {A} (P : A → Prop) (cmp : A → A → Z) (x : A)
    (l : list A) :
  Forall P (insert_by cmp x l) ↔ P x ∧ Forall P l.
Proof.
  induction l as [|y l IH]; cbn.
  - rewrite Forall_singleton, Forall_nil. tauto.
  - destruct (cmp x y <=? 0).
    + now rewrite Forall_cons.
    + rewrite !Forall_cons, IH. tauto.
Qed.

(** Sorting keeps what holds of every element. *)
Lemma Forall_sort {A} (P : A → Prop) (cmp : A → A → Z) (l : list A) :
  Forall P (sort cmp l) ↔ Forall P l.
Proof.
  induction l as [|x l IH]; cbn; [reflexivity|].
  now rewrite Forall_insert_by, Forall_cons, IH.
Qed.

Lemma In_insert_by {A} (cmp : A → A → Z) (x y : A) (l : list A) :
  In y (insert_by cmp x l) ↔ y = x ∨ In y l.
Proof.
  induction l as [|z l IH]; cbn; [intuition congruence|].
  destruct (cmp x z <=? 0); cbn; [intuition congruence|].
  rewrite IH. intuition congruence.
Qed.

(** Sorting keeps the elements. *)
Lemma In_sort {A} (cmp : A → A → Z) (y : A) (l : list A) :
  In y (sort cmp l) ↔ In y l.
Proof.
  induction l as [|x l IH]; cbn; [reflexivity|].
  rewrite In_insert_by, IH. intuition congruence.
Qed.

(** Inserting a dated product in front of which every other product has a
    larger id keeps the order of the listing. *)
Lemma insert_newest_first (x : Product.t) (l : list Product.t) :
  is_Some (Product.created_at x) →
  dated l →
  Forall (λ y, Product.id x < Product.id y) l →
  StronglySorted newest_first_then_id l →
  StronglySorted newest_first_then_id
    (insert_by Offline.by_created_at_desc x l).
Proof.
  intros [tx Hx]. unfold dated.
  induction l as [|y l IH]; cbn; intros Hdated Hids Hsorted.
  - repeat constructor.
  - apply Forall_cons in Hdated. destruct Hdated as [[ty Hy] Hdated].
    apply Forall_cons in Hids. destruct Hids as [Hxy Hids].
    apply StronglySorted_cons in Hsorted. destruct Hsorted as [Hy_l Hl].
    unfold Offline.by_created_at_desc at 1. rewrite Hx, Hy.
    destruct (ty - tx <=? 0) eqn:Hcmp.
    + apply Z.leb_le in Hcmp.
      apply StronglySorted_cons. split.
      * apply Forall_cons. split.
        { exists tx, ty. repeat split; try assumption. lia. }
        apply Forall_forall. intros z Hz.
        pose proof (proj1 (Forall_forall _ _) Hy_l z Hz)
          as (ty' & tz & Hy' & Hz_date & Horder).
        pose proof (proj1 (Forall_forall _ _) Hids z Hz) as Hxz.
        exists tx, tz. repeat split; try assumption.
        rewrite Hy in Hy'. injection Hy' as <-. lia.
      * apply StronglySorted_cons. now split.
    + apply Z.leb_gt in Hcmp.
      apply StronglySorted_cons. split.
      * apply Forall_insert_by. split; [|exact Hy_l].
        exists ty, tx. repeat split; try assumption. lia.
      * now apply IH.
Qed.

(** Sorting a collection that is dated and held in the order of its ids
    gives the order of the listing. *)
Lemma sort_newest_first (l : list Product.t) :
  dated_ascending l →
  StronglySorted newest_first_then_id (sort Offline.by_created_at_desc l).
Proof.
  unfold dated_ascending, dated, ascending_ids.
  induction l as [|x l IH]; cbn; intros [Hdated Hids]; [constructor|].
  apply Forall_cons in Hdated. destruct Hdated as [Hx Hdated].
  apply StronglySorted_cons in Hids. destruct Hids as [Hx_l Hids].
  apply insert_newest_first.
  - exact Hx.
  - unfold dated. now apply Forall_sort.
  - apply Forall_sort. apply Forall_forall. intros y Hy.
    apply (proj1 (Forall_forall _ _) Hx_l).
    apply list_elem_of_In, in_map. now apply list_elem_of_In.
  - now apply IH.
Qed.

Lemma dated_ascending_filter (f : Product.t → bool) (ps : list Product.t) :
  dated_ascending ps → dated_ascending (List.filter f ps).
Proof.
  unfold dated_ascending, dated, ascending_ids.
  induction ps as [|p ps IH]; cbn; [auto|]. intros [Hdated Hids].
  apply Forall_cons in Hdated. destruct Hdated as [Hp Hdated].
  apply StronglySorted_cons in Hids. destruct Hids as [Hp_ps Hids].
  destruct (IH (conj Hdated Hids)) as [IHdated IHids].
  destruct (f p); cbn; [|now split]. split.
  - now apply Forall_cons.
  - apply StronglySorted_cons. split; [|exact IHids].
    apply Forall_forall. intros i Hi.
    apply (proj1 (Forall_forall _ _) Hp_ps).
    apply list_elem_of_In, in_map_iff in Hi. destruct Hi as (q & <- & Hq).
    apply filter_In in Hq. apply list_elem_of_In, in_map. tauto.
Qed.

Lemma dated_ascending_map (f : Product.t → Product.t)
    (ps : list Product.t) :
  (∀ p, Product.id (f p) = Product.id p) →
  (∀ p, Product.created_at (f p) = Product.created_at p) →
  dated_ascending ps → dated_ascending (map f ps).
Proof.
  unfold dated_ascending, dated, ascending_ids.
  intros Hid Hdate [Hdated Hids]. split.
  - apply Forall_forall. intros q Hq.
    apply list_elem_of_In, in_map_iff in Hq. destruct Hq as (p & <- & Hp).
    rewrite Hdate. apply (proj1 (Forall_forall _ _) Hdated).
    now apply list_elem_of_In.
  - rewrite map_map. erewrite map_ext; [exact Hids|].
    intros p. apply Hid.
Qed.

(** The offline listing of a collection that is dated and held in the order
    of its ids. *)
Lemma getProducts_list_newest_first (search category : string)
    (s : Offline.state) :
  dated_ascending (live s) →
  StronglySorted newest_first_then_id
    (Offline.getProducts_list search category s).
Proof.
  intros Hlive. unfold Offline.getProducts_list.
  apply sort_newest_first.
  assert (Hmapped :
            dated_ascending
              (map (λ p,
                      Product.with_category_name
                        (Offline.category_name_of
                           (Offline.getStoredData
                              (Offline.CATEGORIES (Offline.localStorage s))
                              (Offline.SAMPLE_CATEGORIES s)) p) p)
                 (live s))).
  { apply dated_ascending_map; [reflexivity|reflexivity|exact Hlive]. }
  unfold live in Hmapped.
  destruct (truthy search), (String.eqb category "all");
    repeat apply dated_ascending_filter; exact Hmapped.
Qed.

(** The mutations keep a collection dated and in the order of its ids,
    while the ids are within 2^53, where the new ids are exact. *)
Lemma run_dated_ascending (ops : list operation) (s : Offline.state)
    (b : Z) :
  0 ≤ b →
  b + Z.of_nat (length ops) ≤ 2 ^ 53 →
  offline_all (dated_ascending_upto b) s →
  offline_all (dated_ascending_upto (b + Z.of_nat (length ops)))
    (run ops s).
Proof.
  apply (run_keeps dated_ascending_upto).
  - intros b' Hb'. split; [split; [exact Hb'|constructor]|].
    split; constructor.
  - intros b' ps [Hupto Hordered]. split; [now apply ids_upto_weaken|
      exact Hordered].
  - intros b' e d ps Hb' [Hupto [Hdated Hids]].
    pose proof (max_with_0_bounded b' ps Hupto) as Hmax.
    split; [now apply ids_upto_push|]. split.
    + apply Forall_app. split; [exact Hdated|].
      apply Forall_singleton. cbn. eauto.
    + unfold ascending_ids. rewrite map_app.
      apply StronglySorted_app. split; [|split].
      * intros i j Hi Hj. apply list_elem_of_singleton in Hj. subst j.
        apply list_elem_of_In, max_with_0_upper in Hi. cbn.
        rewrite plus_one_exact by lia. lia.
      * exact Hids.
      * repeat constructor.
  - intros b' f ps [Hupto Hordered]. split.
    + now apply ids_upto_filter.
    + now apply dated_ascending_filter.
  - intros b' e u ps index old [Hupto [Hdated Hids]] Hfind. split.
    + now apply (ids_upto_insert _ _ _ _ _ _ Hfind).
    + split.
      * apply Forall_insert; [exact Hdated|]. cbn.
        apply list_find_Some in Hfind. destruct Hfind as (Hlookup & _).
        exact (proj1 (Forall_forall _ _) Hdated old
                 (list_elem_of_lookup_2 _ _ _ Hlookup)).
      * unfold ascending_ids.
        now rewrite (ids_insert_found _ _ _ _ _ Hfind).
Qed.

(** The store that a page load leaves over an empty medium is dated and in
    the order of its ids, 12 at most. *)
Lemma load_dated_ascending (t0 : Z) (okc okp : bool) :
  offline_all (dated_ascending_upto 12)
    (Offline.load t0 okc okp empty_storage).
Proof.
  assert (Hsample : dated_ascending_upto 12 (Offline.sample_products t0)).
  { split; [split; [lia|repeat constructor; cbn; lia]|]. split.
    - repeat constructor; cbn; eauto.
    - unfold ascending_ids. cbn.
      repeat (apply StronglySorted_cons; split;
              [repeat constructor|]); constructor. }
  destruct okc, okp; (split; [cbn; try exact I|]); exact Hsample.
Qed.

(** So every listing of a store that starts from an empty medium is in the
    order of the listing after any mutations, while the ids are within
    2^53. *)
Lemma newest_first_after_load (t0 : Z) (okc okp : bool)
    (ops : list operation) (search category : string) :
  12 + Z.of_nat (length ops) ≤ 2 ^ 53 →
  StronglySorted newest_first_then_id
    (Offline.getProducts_list search category
       (run ops (Offline.load t0 okc okp empty_storage))).
Proof.
  intros Hbound. apply getProducts_list_newest_first.
  apply (offline_all_live
           (dated_ascending_upto (12 + Z.of_nat (length ops)))).
  apply run_dated_ascending; [lia|exact Hbound|apply load_dated_ascending].
Qed.

(** A listing of the default products that falls back to the offline
    backend with a request to sort by [remaining_stock] in ascending order
    is not in that order. *)
Lemma offline_listing_ignores_sort :
  let s := Offline.load 1000 true true empty_storage in
  let result :=
    Api.getProducts unreachable "" "all" 1 50 "remaining_stock" "ASC" s in
  map Product.remaining_stock <$> Result.products result
  = Some [50; 75; 25; 100; 40; 80; 200; 15; 12; 25; 20; 100]
  ∧ ¬ StronglySorted Z.le [50; 75; 25; 100; 40; 80; 200; 15; 12; 25; 20; 100].
Proof.
  split; [reflexivity|]. intros Hsorted.
  apply StronglySorted_cons in Hsorted. destruct Hsorted as [_ Hsorted].
  apply StronglySorted_cons in Hsorted. destruct Hsorted as [Hle _].
  apply Forall_cons in Hle. destruct Hle as [Hle _]. lia.
Qed.

(** C4, as the code has it: a listing that the offline backend serves is
    sorted by creation date, the newest first, whatever sort field and sort
    order were requested.  Of two products of one creation date the one of
    the smaller id comes first, when the products of the store have their
    creation dates and are held in the ascending order of their ids, as
    seeding, creations, updates and deletions leave them while the ids are
    within 2^53. *)
Theorem offline_listing_order (search category : string) (page limit : Z)
    (sortBy sortOrder : string) (s : Offline.state) :
  dated_ascending (live s) →
  ∃ products,
    Result.products
      (Api.getProducts unreachable search category page limit sortBy
         sortOrder s)
    = Some products
    ∧ StronglySorted newest_first_then_id products
    ∧ ∀ sortBy' sortOrder',
        Result.products
          (Api.getProducts unreachable search category page limit sortBy'
             sortOrder' s)
        = Some products.
Proof.
  intros Hlive. exists (Offline.getProducts_list search category s).
  split; [reflexivity|]. split; [|reflexivity].
  now apply getProducts_list_newest_first.
Qed.

Lemma offline_listing_order_witness :
  let s := Offline.load 1000 true true empty_storage in
  ∃ products,
    Result.products
      (Api.getProducts unreachable "" "all" 1 50 "name" "ASC" s)
    = Some products
    ∧ StronglySorted newest_first_then_id products.
Proof.
  intros s.
  assert (Hlive : dated_ascending (live s)).
  { split.
    - vm_compute. repeat constructor; eauto.
    - unfold ascending_ids. vm_compute.
      repeat (apply StronglySorted_cons; split;
              [repeat constructor|]); constructor. }
  destruct (offline_listing_order "" "all" 1 50 "name" "ASC" s Hlive)
    as (products & Hresult & Hsorted & _).
  exists products. now split.
Defined.

(** ** Search *)

Lemma append_cons (c : ascii) (a b : string) :
  String c a +:+ b = String c (a +:+ b).
Proof. reflexivity. Qed.

Lemma startsWith_spec (t s : string) :
  startsWith t s = true ↔ ∃ after, t = s +:+ after.
Proof.
  revert t. induction s as [|c s IH]; intros t; cbn.
  - split; [intros _; now exists t|reflexivity].
  - destruct t as [|d t].
    + split; [discriminate|]. intros [after Hafter]. discriminate Hafter.
    + rewrite andb_true_iff, Ascii.eqb_eq, IH. split.
      * intros [-> [after ->]]. now exists after.
      * intros [after Hafter]. rewrite append_cons in Hafter.
        injection Hafter as -> ->.
        split; [reflexivity|]. now exists after.
Qed.

(** [includes] finds the pieces of a text. *)
Lemma includes_spec (t s : string) :
  includes t s = true ↔ ∃ before after, t = before +:+ s +:+ after.
Proof.
  induction t as [|d t IH].
  - cbn [includes]. rewrite orb_false_r, startsWith_spec. split.
    + intros [after Hafter]. now exists "", after.
    + intros (before & after & Ht). destruct before as [|b before];
        [now exists after|discriminate Ht].
  - cbn [includes]. rewrite orb_true_iff, startsWith_spec, IH. split.
    + intros [[after Hafter]|(before & after & Ht)].
      * now exists "", after.
      * exists (String d before), after. rewrite append_cons.
        now rewrite Ht.
    + intros (before & after & Ht). destruct before as [|b before].
      * left. now exists after.
      * right. rewrite append_cons in Ht. injection Ht as -> ->.
        now exists before, after.
Qed.

Lemma toLowerCase_app (a b : string) :
  toLowerCase (a +:+ b) = toLowerCase a +:+ toLowerCase b.
Proof.
  induction a as [|c a IH]; [reflexivity|].
  rewrite append_cons. cbn [toLowerCase]. now rewrite append_cons, IH.
Qed.

(** A text whose lower-case form splits in two splits in two itself. *)
Lemma toLowerCase_split (t a b : string) :
  toLowerCase t = a +:+ b →
  ∃ t1 t2, t = t1 +:+ t2 ∧ toLowerCase t1 = a ∧ toLowerCase t2 = b.
Proof.
  revert t. induction a as [|c a IH]; intros t Ht.
  - now exists "", t.
  - rewrite append_cons in Ht.
    destruct t as [|d t]; [discriminate Ht|]. cbn in Ht.
    injection Ht as Hc Ht. destruct (IH t Ht) as (t1 & t2 & -> & <- & <-).
    exists (String d t1), t2. cbn. now rewrite Hc.
Qed.

(** What the listings test, [includes] on the lower-case forms, is the
    occurrence of the search text up to the case of letters. *)
Lemma includes_ignoring_case (t s : string) :
  includes (toLowerCase t) (toLowerCase s) = true
  ↔ occurs_ignoring_case s t.
Proof.
  rewrite includes_spec. split.
  - intros (before & after & Ht).
    destruct (toLowerCase_split _ _ _ Ht) as (t1 & rest & -> & <- & Hrest).
    destruct (toLowerCase_split _ _ _ Hrest) as (piece & t3 & -> & Hs & <-).
    now exists t1, piece, t3.
  - intros (before & piece & after & -> & Hpiece).
    exists (toLowerCase before), (toLowerCase after).
    now rewrite !toLowerCase_app, Hpiece.
Qed.

(** The search of the offline listing, with no filter on the category: a
    product is listed for a search text that is not empty exactly when it
    is in the store and the text occurs, up to the case of letters, in its
    name or in its description; for the empty text every product of the
    store is listed. *)
Lemma offline_search (search : string) (s : Offline.state) (p : Product.t) :
  let named q :=
    Product.with_category_name
      (Offline.category_name_of
         (Offline.getStoredData
            (Offline.CATEGORIES (Offline.localStorage s))
            (Offline.SAMPLE_CATEGORIES s)) q) q in
  In p (Offline.getProducts_list search "all" s)
  ↔ In p (map named (live s))
    ∧ (search = ""
       ∨ occurs_ignoring_case search (Product.name p)
       ∨ ∃ d, Product.description p = Some d
              ∧ occurs_ignoring_case search d).
Proof.
  intros named. unfold Offline.getProducts_list.
  change (String.eqb "all" "all") with true. cbv iota.
  rewrite In_sort. fold (live s). fold named.
  destruct search as [|c search]; cbn [truthy].
  - intuition.
  - rewrite filter_In. unfold Offline.matches.
    rewrite orb_true_iff, includes_ignoring_case.
    destruct (Product.description p) as [d|].
    + rewrite includes_ignoring_case. split.
      * intros [Hp [Hname|Hd]]; [tauto|]. split; [exact Hp|].
        right. right. now exists d.
      * intros [Hp [Hempty|[Hname|(d' & Hd' & Hocc)]]];
          [discriminate Hempty|tauto|].
        injection Hd' as <-. tauto.
    + split.
      * intros [Hp [Hname|Hd]]; [tauto|discriminate Hd].
      * intros [Hp [Hempty|[Hname|(d' & Hd' & Hocc)]]];
          [discriminate Hempty|tauto|discriminate Hd'].
Qed.

(** The sample scenario of the serverless listing: the search text
    [robinet] selects the one product named [Robinet mélangeur], and the
    category 1 the two tools, with the name of their category. *)
Example serverless_search_robinet :
  let e := {| Serverless.now := 1000; Serverless.now' := 1000;
              Serverless.writeFile_error := None |} in
  let listing search category :=
    match fst (Serverless.handler e
                 (GET_products search category 1 50 "created_at" "DESC")
                 no_files) with
    | Some response =>
        map (λ p, (Product.id p, Product.name p, Product.category_name p))
          <$> Result.products (body response)
    | None => None
    end in
  listing (Some "robinet") None
  = Some [(5, "Robinet mélangeur", Some "Plomberie")]
  ∧ listing None (Some "1")
    = Some [(1, "Marteau 500g", Some "Outils");
            (2, "Tournevis cruciforme", Some "Outils")].
Proof. split; reflexivity. Qed.

Lemma like_any_run (text : string) : Express.like "%" text = true.
Proof.
  induction text as [|c text IH]; [reflexivity|].
  change (Express.like "%" (String c text))
    with (Express.like "" (String c text) || Express.like "%" text).
  rewrite IH. apply orb_true_r.
Qed.

(** The pattern that the relational server builds for the search text [%]
    matches every text. *)
Lemma like_percent (text : string) :
  Express.like ("%" +:+ "%" +:+ "%") text = true.
Proof.
  change ("%" +:+ "%" +:+ "%") with "%%%".
  destruct text as [|c text]; [reflexivity|].
  change (Express.like "%%%" (String c text))
    with (Express.like "%%" (String c text)
          || Express.like "%%%" text).
  change (Express.like "%%" (String c text))
    with (Express.like "%" (String c text) || Express.like "%%" text).
  now rewrite like_any_run.
Qed.

(** C5, at the relational server: the search text [%] selects every row,
    also a row in whose name and description the character does not occur,
    which the offline listing leaves out.  The text goes into the LIKE
    pattern as it is, and there [%] stands for any run of characters. *)
Theorem relational_search_wildcard :
  let row :=
    Product.mk 1 "Colle PVC forte"
      (Some "High-strength PVC pipe adhesive for plumbing installations")
      1 (Some "Droguerie") 2500 3500 50 10 None (Some 1000) 1000 in
  (∀ rows, Express.searched "%" rows = rows)
  ∧ Express.search_condition "%" row = true
  ∧ ¬ occurs_ignoring_case "%" (Product.name row)
  ∧ ¬ occurs_ignoring_case "%"
        "High-strength PVC pipe adhesive for plumbing installations"
  ∧ Offline.matches (toLowerCase "%") row = false
  ∧ Serverless.matches "%" row = false.
Proof.
  intros row. split; [|split; [|split; [|split; [|split]]]];
    try reflexivity.
  - intros rows. unfold Express.searched. cbn [truthy].
    induction rows as [|p rows IH]; cbn [List.filter]; [reflexivity|].
    unfold Express.search_condition at 1. rewrite like_percent. cbn.
    now rewrite IH.
  - rewrite <- includes_ignoring_case. now vm_compute.
  - rewrite <- includes_ignoring_case. now vm_compute.
Qed.

(** * Further properties of the code *)

(** ** The offline store: reading one's writes *)

(** The listing of everything shows the live products, each with the name
    of its category. *)
Lemma listing_all (s : Offline.state) (p : Product.t) :
  In p (Offline.getProducts_list "" "all" s) ↔ In p (map (named s) (live s)).
Proof.
  pose proof (offline_search "" s p) as Hsearch. cbv zeta in Hsearch.
  fold (named s) in Hsearch. rewrite Hsearch. intuition.
Qed.

Lemma createProduct_keeps_categories (e : Offline.Env) (d : ProductData.t)
    (s : Offline.state) (p : Product.t) :
  named (snd (Offline.createProduct e d s)) p = named s p.
Proof.
  unfold named, Offline.createProduct.
  destruct s as [[stored_products0 stored_categories] sc sp].
  now destruct stored_products0, (Offline.setItem_ok e).
Qed.

(** X1: a creation that answers a success and whose write goes through
    answers the largest id plus one, as doubles add, stores the new product
    after the ones that were there, and the listing of everything then
    shows what it showed before and the new product, with the values of the
    request. *)
Theorem offline_create_is_listed (e : Offline.Env) (d : ProductData.t)
    (s : Offline.state) :
  Offline.setItem_ok e = true →
  Result.success (fst (Offline.createProduct e d s)) = true →
  let newId := plus_one (max_with_0 (map Product.id (live s))) in
  let new := Offline.new_product e newId d in
  let s' := snd (Offline.createProduct e d s) in
  fst (Offline.createProduct e d s) = created newId
  ∧ Offline.PRODUCTS (Offline.localStorage s') = Stored (live s ++ [new])
  ∧ live s' = live s ++ [new]
  ∧ (∀ p, In p (Offline.getProducts_list "" "all" s')
          ↔ In p (Offline.getProducts_list "" "all" s) ∨ p = named s new)
  ∧ Product.name new = ProductData.name d
  ∧ Product.category_id new = ProductData.category_id d
  ∧ Product.selling_price new = ProductData.selling_price d
  ∧ Product.remaining_stock new = ProductData.remaining_stock d
  ∧ Product.created_at new = Some (Offline.now e).
Proof.
  intros Hok _ newId new s'.
  assert (Hstored :
            Offline.PRODUCTS (Offline.localStorage s')
            = Stored (live s ++ [new])).
  { subst s' new newId. unfold Offline.createProduct, live. rewrite Hok.
    destruct s as [[stored_products0 stored_categories] sc sp].
    now destruct stored_products0. }
  assert (Hlive : live s' = live s ++ [new]).
  { unfold live at 1. now rewrite Hstored. }
  split; [reflexivity|]. split; [exact Hstored|]. split; [exact Hlive|].
  split; [|repeat split].
  intros p. rewrite !listing_all, Hlive, map_app, in_app_iff.
  assert (Hmap : ∀ l, map (named s') l = map (named s) l).
  { intros l. apply map_ext. intros q.
    apply createProduct_keeps_categories. }
  rewrite !Hmap. cbn [map In]. intuition.
Qed.

Lemma offline_create_is_listed_witness :
  let s := Offline.load 1000 true true empty_storage in
  let e := {| Offline.now := 2000; Offline.now' := 2001;
              Offline.setItem_ok := true |} in
  let d := ProductData.mk "Pelle" (Given "Pelle ronde") 5 900 1500 4 10
             Absent in
  fst (Offline.createProduct e d s) = created 13.
Proof.
  intros s e d.
  exact (proj1 (offline_create_is_listed e d s eq_refl eq_refl)).
Defined.

Lemma filter_unknown_same (i : Z) (ps : list Product.t) :
  i ∉ map Product.id ps →
  List.filter (λ p, negb (Product.id p =? i)) ps = ps.
Proof.
  intros Hi. induction ps as [|p ps IH]; cbn; [reflexivity|].
  cbn in Hi. apply not_elem_of_cons in Hi. destruct Hi as [Hp Hps].
  destruct (Product.id p =? i) eqn:Heq; cbn.
  - apply Z.eqb_eq in Heq. congruence.
  - now rewrite IH.
Qed.

Lemma filter_removes_id (i : Z) (ps : list Product.t) :
  i ∉ map Product.id (List.filter (λ p, negb (Product.id p =? i)) ps).
Proof.
  intros Hin. apply list_elem_of_In, in_map_iff in Hin.
  destruct Hin as (p & Hid & Hp). apply filter_In in Hp.
  destruct Hp as [_ Hp]. apply negb_true_iff, Z.eqb_neq in Hp. congruence.
Qed.

(** A deletion of an id that no stored product has is a failure that
    changes nothing. *)
Lemma deleteProduct_unknown (e : Offline.Env) (i : Z) (s : Offline.state) :
  i ∉ map Product.id (stored_products s) →
  Offline.deleteProduct e i s = (failed "Product not found", s).
Proof.
  intros Hi. unfold Offline.deleteProduct. fold (stored_products s).
  now rewrite (filter_unknown_same _ _ Hi), Nat.eqb_refl.
Qed.

(** X2: a deletion of a stored product whose write goes through answers a
    success and stores the collection without the products of that id:
    the id is gone, every other product is still there, and a second
    deletion of the id is answered [Product not found] and changes
    nothing. *)
Theorem offline_delete_removes (e : Offline.Env) (i : Z)
    (s : Offline.state) :
  Offline.setItem_ok e = true →
  i ∈ map Product.id (stored_products s) →
  let s' := snd (Offline.deleteProduct e i s) in
  fst (Offline.deleteProduct e i s) = succeeded
  ∧ Offline.PRODUCTS (Offline.localStorage s')
    = Stored (List.filter (λ p, negb (Product.id p =? i)) (stored_products s))
  ∧ (i ∉ map Product.id (stored_products s'))
  ∧ (∀ p, Product.id p ≠ i →
          (In p (stored_products s') ↔ In p (stored_products s)))
  ∧ ∀ e', Offline.deleteProduct e' i s' = (failed "Product not found", s').
Proof.
  intros Hok Hknown s'.
  assert (Hdelete :
            Offline.deleteProduct e i s
            = (succeeded,
               Offline.set_products true
                 (List.filter (λ p, negb (Product.id p =? i))
                    (stored_products s)) s)).
  { unfold Offline.deleteProduct. fold (stored_products s).
    now rewrite (filter_known_shorter _ _ Hknown), Hok. }
  assert (Hstored :
            stored_products s'
            = List.filter (λ p, negb (Product.id p =? i))
                (stored_products s)).
  { subst s'. now rewrite Hdelete. }
  assert (Hgone : i ∉ map Product.id (stored_products s')).
  { rewrite Hstored. apply filter_removes_id. }
  split; [now rewrite Hdelete|]. split; [subst s'; now rewrite Hdelete|].
  split; [exact Hgone|]. split.
  - intros p Hp. rewrite Hstored, filter_In, negb_true_iff, Z.eqb_neq.
    tauto.
  - intros e'. now apply deleteProduct_unknown.
Qed.

Lemma offline_delete_removes_witness :
  let s := Offline.load 1000 true true empty_storage in
  let e := {| Offline.now := 2000; Offline.now' := 2001;
              Offline.setItem_ok := true |} in
  fst (Offline.deleteProduct e 3 s) = succeeded.
Proof.
  intros s e.
  assert (Hknown : 3 ∈ map Product.id (stored_products s)).
  { apply (bool_decide_unpack _). vm_compute. exact I. }
  exact (proj1 (offline_delete_removes e 3 s eq_refl Hknown)).
Defined.

(** X3: an update or a deletion succeeds exactly when a stored product has
    the id; when it fails, the error is [Product not found] and the state
    is as it was. *)
Theorem offline_mutation_success (e : Offline.Env) (s : Offline.state) :
  (∀ u,
     (Result.success (fst (Offline.updateProduct e u s)) = true
      ↔ ProductUpdate.id u ∈ map Product.id (stored_products s))
     ∧ (Result.success (fst (Offline.updateProduct e u s)) = false →
        Offline.updateProduct e u s = (failed "Product not found", s)))
  ∧ (∀ i,
       (Result.success (fst (Offline.deleteProduct e i s)) = true
        ↔ i ∈ map Product.id (stored_products s))
       ∧ (Result.success (fst (Offline.deleteProduct e i s)) = false →
          Offline.deleteProduct e i s = (failed "Product not found", s))).
Proof.
  split.
  - intros u.
    destruct (decide (ProductUpdate.id u ∈ map Product.id (stored_products s)))
      as [Hknown|Hunknown].
    + destruct (list_find_known _ _ Hknown) as (index & old & Hfind & _).
      unfold Offline.updateProduct. fold (stored_products s).
      rewrite Hfind. cbn. split; [tauto|discriminate].
    + unfold Offline.updateProduct. fold (stored_products s).
      rewrite (list_find_unknown _ _ Hunknown). cbn.
      split; [|reflexivity]. split; [discriminate|tauto].
  - intros i.
    destruct (decide (i ∈ map Product.id (stored_products s)))
      as [Hknown|Hunknown].
    + unfold Offline.deleteProduct. fold (stored_products s).
      rewrite (filter_known_shorter _ _ Hknown). cbn.
      split; [tauto|discriminate].
    + rewrite (deleteProduct_unknown _ _ _ Hunknown). cbn.
      split; [|reflexivity]. split; [discriminate|tauto].
Qed.

Lemma offline_mutation_success_witness :
  let s := Offline.load 1000 true true empty_storage in
  let e := {| Offline.now := 2000; Offline.now' := 2001;
              Offline.setItem_ok := false |} in
  Offline.deleteProduct e 99 s = (failed "Product not found", s).
Proof.
  intros s e.
  exact (proj2 (proj2 (offline_mutation_success e s) 99) eq_refl).
Defined.

Lemma set_products_read (ps : list Product.t) (s : Offline.state) :
  stored_products (Offline.set_products true ps s) = ps
  ∧ live (Offline.set_products true ps s) = ps.
Proof. split; reflexivity. Qed.

Lemma set_products_keeps_categories (ok : bool) (ps : list Product.t)
    (s : Offline.state) (p : Product.t) :
  named (Offline.set_products ok ps s) p = named s p.
Proof. reflexivity. Qed.

(** X4: an update of a stored product whose write goes through changes the
    record at the index where the id was found and nothing else: the
    collection keeps its length, its ids and every other record, the record
    keeps its id and its creation date, and the listing of everything shows
    the updated record. *)
Theorem offline_update_in_place (e : Offline.Env) (u : ProductUpdate.t)
    (s : Offline.state) (index : nat) (old : Product.t) :
  Offline.setItem_ok e = true →
  list_find (λ p, Product.id p = ProductUpdate.id u) (stored_products s)
  = Some (index, old) →
  let new := Offline.updated_product e old u in
  let s' := snd (Offline.updateProduct e u s) in
  fst (Offline.updateProduct e u s) = succeeded
  ∧ stored_products s' = <[index := new]> (stored_products s)
  ∧ stored_products s' !! index = Some new
  ∧ length (stored_products s') = length (stored_products s)
  ∧ (∀ j, j ≠ index → stored_products s' !! j = stored_products s !! j)
  ∧ map Product.id (stored_products s') = map Product.id (stored_products s)
  ∧ Product.id new = Product.id old
  ∧ Product.created_at new = Product.created_at old
  ∧ Product.updated_at new = Offline.now e
  ∧ In (named s new) (Offline.getProducts_list "" "all" s').
Proof.
  intros Hok Hfind new s'.
  assert (Hupdate :
            Offline.updateProduct e u s
            = (succeeded,
               Offline.set_products true
                 (<[index := new]> (stored_products s)) s)).
  { unfold Offline.updateProduct. fold (stored_products s).
    now rewrite Hfind, Hok. }
  assert (Hstored : stored_products s' = <[index := new]> (stored_products s)).
  { subst s'. now rewrite Hupdate. }
  assert (Hlive : live s' = <[index := new]> (stored_products s)).
  { subst s'. now rewrite Hupdate. }
  pose proof (proj1 (list_find_Some _ _ _ _) Hfind) as (Hlookup & Hid & _).
  assert (Hindex : (index < length (stored_products s))%nat)
    by now apply lookup_lt_Some in Hlookup.
  assert (Hnew : stored_products s' !! index = Some new).
  { rewrite Hstored. now apply list_lookup_insert_eq. }
  split; [now rewrite Hupdate|]. split; [exact Hstored|].
  split; [exact Hnew|]. split; [now rewrite Hstored, length_insert|].
  split; [intros j Hj; rewrite Hstored; now apply list_lookup_insert_ne|].
  split; [rewrite Hstored; now apply (ids_insert_found _ _ _ _ _ Hfind)|].
  split; [cbn; congruence|]. split; [reflexivity|]. split; [reflexivity|].
  apply listing_all. rewrite Hlive, <- Hstored.
  replace (named s new) with (named s' new)
    by (subst s'; now rewrite Hupdate).
  apply in_map. apply list_elem_of_In.
  exact (list_elem_of_lookup_2 _ _ _ Hnew).
Qed.

Lemma offline_update_in_place_witness :
  let s := Offline.load 1000 true true empty_storage in
  let e := {| Offline.now := 2000; Offline.now' := 2001;
              Offline.setItem_ok := true |} in
  let u := ProductUpdate.mk 2
             (ProductData.mk "Mastic" Absent 1 1900 2900 70 15 Undefined) in
  fst (Offline.updateProduct e u s) = succeeded.
Proof.
  intros s e u.
  assert (Hfind :
            list_find (λ p, Product.id p = ProductUpdate.id u)
              (stored_products s)
            = Some (1%nat, Offline.sample_product 1000 2
                             "Mastic d'étanchéité universel"
                             "Mastic étanche pour joints et fissures"
                             1 1800 2800 75 15 "Droguerie"))
    by reflexivity.
  exact (proj1 (offline_update_in_place e u s _ _ eq_refl Hfind)).
Defined.

(** Below 2^53 the new id is larger than every id. *)
Lemma next_id_above (ps : list Product.t) :
  max_with_0 (map Product.id ps) < 2 ^ 53 →
  ¬ In (plus_one (max_with_0 (map Product.id ps))) (map Product.id ps).
Proof.
  intros Hmax Hin. rewrite plus_one_exact in Hin by exact Hmax.
  apply max_with_0_upper in Hin. lia.
Qed.

Lemma filter_drops_pushed (ps : list Product.t) (p : Product.t) :
  max_with_0 (map Product.id ps) < 2 ^ 53 →
  Product.id p = plus_one (max_with_0 (map Product.id ps)) →
  List.filter (λ q, negb (Product.id q =? Product.id p)) (ps ++ [p]) = ps.
Proof.
  intros Hmax Hid. rewrite List.filter_app. cbn. rewrite Z.eqb_refl. cbn.
  rewrite app_nil_r. apply filter_unknown_same.
  rewrite Hid. intros Hin. apply list_elem_of_In in Hin.
  exact (next_id_above _ Hmax Hin).
Qed.

(** X5: on a store that holds a stored collection whose ids are below
    2^53, a creation that answers a success followed by the deletion of the
    id it answered, both written, gives back the state from before, so the
    next creation answers that id again. *)
Theorem offline_create_delete_round_trip (e1 e2 e3 : Offline.Env)
    (d d' : ProductData.t) (s : Offline.state) (ps : list Product.t) :
  Offline.setItem_ok e1 = true →
  Offline.setItem_ok e2 = true →
  Offline.PRODUCTS (Offline.localStorage s) = Stored ps →
  max_with_0 (map Product.id ps) < 2 ^ 53 →
  Result.success (fst (Offline.createProduct e1 d s)) = true →
  let newId := max_with_0 (map Product.id ps) + 1 in
  let s1 := snd (Offline.createProduct e1 d s) in
  fst (Offline.createProduct e1 d s) = created newId
  ∧ Offline.deleteProduct e2 newId s1 = (succeeded, s)
  ∧ fst (Offline.createProduct e3 d' (snd (Offline.deleteProduct e2 newId s1)))
    = created newId.
Proof.
  intros Hok1 Hok2 Hstored Hmax _ newId s1.
  destruct s as [[stored_products0 stored_categories] sc sp].
  cbn in Hstored. subst stored_products0.
  assert (HnewId : plus_one (max_with_0 (map Product.id ps)) = newId)
    by now apply plus_one_exact.
  assert (Hcreate : ∀ e d,
            fst (Offline.createProduct e d
                   {| Offline.localStorage :=
                        {| Offline.PRODUCTS := Stored ps;
                           Offline.CATEGORIES := stored_categories |};
                      Offline.SAMPLE_CATEGORIES := sc;
                      Offline.SAMPLE_PRODUCTS := sp |})
            = created newId).
  { intros e0 d0. rewrite <- HnewId. reflexivity. }
  assert (Hdelete :
            Offline.deleteProduct e2 newId s1
            = (succeeded,
               {| Offline.localStorage :=
                    {| Offline.PRODUCTS := Stored ps;
                       Offline.CATEGORIES := stored_categories |};
                  Offline.SAMPLE_CATEGORIES := sc;
                  Offline.SAMPLE_PRODUCTS := sp |})).
  { assert (Hs1 :
              s1 = {| Offline.localStorage :=
                        {| Offline.PRODUCTS :=
                             Stored (ps ++ [Offline.new_product e1 newId d]);
                           Offline.CATEGORIES := stored_categories |};
                      Offline.SAMPLE_CATEGORIES := sc;
                      Offline.SAMPLE_PRODUCTS := sp |}).
    { subst s1. rewrite <- HnewId. unfold Offline.createProduct.
      now rewrite Hok1. }
    assert (Hfilter :
              List.filter (λ q, negb (Product.id q =? newId))
                (ps ++ [Offline.new_product e1 newId d]) = ps)
      by exact (filter_drops_pushed ps (Offline.new_product e1 newId d)
                  Hmax (eq_sym HnewId)).
    rewrite Hs1. unfold Offline.deleteProduct.
    cbn [Offline.getStoredData Offline.PRODUCTS Offline.localStorage].
    rewrite Hfilter, length_app, Hok2. cbn [length].
    destruct (length ps + 1 =? length ps)%nat eqn:Hlen; [|reflexivity].
    apply Nat.eqb_eq in Hlen. lia. }
  split; [apply Hcreate|]. split; [exact Hdelete|]. rewrite Hdelete.
  apply Hcreate.
Qed.

Lemma offline_create_delete_round_trip_witness :
  let s := Offline.load 1000 true true empty_storage in
  let e := {| Offline.now := 2000; Offline.now' := 2001;
              Offline.setItem_ok := true |} in
  let d := ProductData.mk "Pelle" (Given "Pelle ronde") 5 900 1500 4 10
             Absent in
  Offline.deleteProduct e 13 (snd (Offline.createProduct e d s))
  = (succeeded, s).
Proof.
  intros s e d.
  assert (Hmax : max_with_0 (map Product.id (Offline.sample_products 1000))
                 < 2 ^ 53) by (vm_compute; reflexivity).
  exact (proj1 (proj2 (offline_create_delete_round_trip e e e d d s
                         (Offline.sample_products 1000)
                         eq_refl eq_refl eq_refl Hmax eq_refl))).
Defined.

(** ** The offline listing *)

(** X6: what the offline listing shows for a search text and a category,
    when the search text, the category and the names and descriptions of
    the live products are ASCII texts and the category does not parse to a
    number beyond 2^53: a live product, with the name of its category, is
    listed exactly when the search text is empty or occurs, up to the case
    of letters, in its name or its description, and the category is [all]
    or parses to the product's category id.  A category that is not [all]
    and does not parse to a number lists nothing. *)
Theorem offline_listing_membership (search category : string)
    (s : Offline.state) (p : Product.t) :
  ascii_text search = true →
  ascii_text category = true →
  safe_numeral category →
  Forall ascii_product (live s) →
  (In p (Offline.getProducts_list search category s)
   ↔ In p (map (named s) (live s))
     ∧ (search = ""
        ∨ occurs_ignoring_case search (Product.name p)
        ∨ ∃ d, Product.description p = Some d
               ∧ occurs_ignoring_case search d)
     ∧ (category = "all" ∨ parseInt category = Some (Product.category_id p)))
  ∧ (category ≠ "all" → parseInt category = None →
     Offline.getProducts_list search category s = []).
Proof.
  intros _ _ _ _.
  assert (Hsearched :
            ∀ q,
              In q (if truthy search
                    then List.filter (Offline.matches (toLowerCase search))
                           (map (named s) (live s))
                    else map (named s) (live s))
              ↔ In q (Offline.getProducts_list search "all" s)).
  { intros q. unfold Offline.getProducts_list.
    change (String.eqb "all" "all") with true. cbv iota.
    now rewrite In_sort. }
  assert (Hcategory :
            ∀ q, Offline.in_category category q = true
                 ↔ parseInt category = Some (Product.category_id q)).
  { intros q. unfold Offline.in_category.
    destruct (parseInt category) as [n|]; [|split; discriminate].
    rewrite Z.eqb_eq. split; [now intros ->|]. intros Heq.
    now injection Heq as ->. }
  split.
  - pose proof (offline_search search s p) as Hsearch. cbv zeta in Hsearch.
    fold (named s) in Hsearch. rewrite <- Hsearched in Hsearch.
    unfold Offline.getProducts_list. rewrite In_sort.
    fold (live s). fold (named s).
    destruct (String.eqb category "all") eqn:Hall.
    + apply String.eqb_eq in Hall. rewrite Hsearch. tauto.
    + apply String.eqb_neq in Hall.
      rewrite filter_In, Hcategory, Hsearch. tauto.
  - intros Hall Hnan. unfold Offline.getProducts_list.
    apply String.eqb_neq in Hall. rewrite Hall.
    assert (Hnone : ∀ l, List.filter (Offline.in_category category) l = []).
    { intros l. induction l as [|q l IH]; [reflexivity|]. cbn.
      unfold Offline.in_category at 1. now rewrite Hnan. }
    now rewrite Hnone.
Qed.

Lemma offline_listing_membership_witness :
  let pelle := Product.mk 1 "Pelle" (Some "Pelle ronde") 5 None 900 1500 4
                 10 None (Some 1000) 1000 in
  let s := {| Offline.localStorage :=
                {| Offline.PRODUCTS := Stored [pelle];
                   Offline.CATEGORIES := Stored [] |};
              Offline.SAMPLE_CATEGORIES := [];
              Offline.SAMPLE_PRODUCTS := [] |} in
  In (named s pelle) (Offline.getProducts_list "RONDE" "0x5" s)
  ∧ Offline.getProducts_list "" "outils" s = [].
Proof.
  intros pelle s.
  assert (Hlive : Forall ascii_product (live s)).
  { repeat constructor. intros d Hd. cbn in Hd. now injection Hd as <-. }
  assert (Hsafe : ∀ category n,
            category = "0x5" ∨ category = "outils" →
            parseInt category = Some n → Z.abs n < 2 ^ 53).
  { intros category n [->| ->] Hn; vm_compute in Hn; [|discriminate Hn].
    injection Hn as <-. reflexivity. }
  split.
  - apply (proj1 (offline_listing_membership "RONDE" "0x5" s (named s pelle)
                    eq_refl eq_refl
                    (λ n, Hsafe "0x5" n (or_introl eq_refl)) Hlive)).
    split; [left; reflexivity|]. split; [|right; reflexivity].
    right. right. exists "Pelle ronde". split; [reflexivity|].
    exists "Pelle ", "ronde", "". split; reflexivity.
  - apply (proj2 (offline_listing_membership "" "outils" s pelle
                    eq_refl eq_refl
                    (λ n, Hsafe "outils" n (or_intror eq_refl)) Hlive)).
    + discriminate.
    + reflexivity.
Defined.

(** Whatever the search and the category, a listing shows live products
    with the names of their categories. *)
Lemma listing_members_named (search category : string) (s : Offline.state)
    (p : Product.t) :
  In p (Offline.getProducts_list search category s) →
  In p (map (named s) (live s)).
Proof.
  unfold Offline.getProducts_list. rewrite In_sort.
  fold (live s). fold (named s).
  destruct (truthy search), (String.eqb category "all");
    rewrite ?filter_In; tauto.
Qed.

(** X7: every product of an offline listing carries a category name that
    is not empty: the name of the first category with the product's
    category id, or [Unknown] when there is none or its name is empty. *)
Theorem offline_listing_category_names (search category : string)
    (s : Offline.state) (p : Product.t) :
  In p (Offline.getProducts_list search category s) →
  let categories :=
    Offline.getStoredData (Offline.CATEGORIES (Offline.localStorage s))
      (Offline.SAMPLE_CATEGORIES s) in
  ∃ cn,
    Product.category_name p = Some cn
    ∧ cn ≠ ""
    ∧ match List.find (λ c, Category.id c =? Product.category_id p)
              categories with
      | Some c => if truthy (Category.name c) then cn = Category.name c
                  else cn = "Unknown"
      | None => cn = "Unknown"
      end.
Proof.
  intros Hin categories.
  apply listing_members_named in Hin. apply in_map_iff in Hin.
  destruct Hin as (p0 & <- & _).
  exists (Offline.category_name_of categories p0).
  split; [reflexivity|]. unfold named. cbn [Product.category_id
    Product.with_category_name]. unfold Offline.category_name_of.
  destruct (List.find _ categories) as [c|]; cbn; [|split; [discriminate|
    reflexivity]].
  destruct (Category.name c) as [|a name] eqn:Hname; cbn.
  - split; [discriminate|reflexivity].
  - split; [discriminate|reflexivity].
Qed.

Lemma offline_listing_category_names_witness :
  let s := Offline.load 1000 true true empty_storage in
  let p := named s (Offline.sample_product 1000 3 "Robinet mélangeur chromé"
                      "Robinet mélangeur pour cuisine et salle de bain"
                      2 15000 22000 25 5 "Sanitaire") in
  ∃ cn, Product.category_name p = Some cn ∧ cn ≠ "".
Proof.
  intros s p.
  assert (Hin : In p (Offline.getProducts_list "robinet" "all" s)).
  { left. reflexivity. }
  destruct (offline_listing_category_names "robinet" "all" s p Hin)
    as (cn & Hcn & Hne & _).
  exists cn. now split.
Defined.

Lemma insert_by_Permutation {A} (cmp : A → A → Z) (x : A) (l : list A) :
  insert_by cmp x l ≡ₚ x :: l.
Proof.
  induction l as [|y l IH]; cbn; [reflexivity|].
  destruct (cmp x y <=? 0); [reflexivity|].
  rewrite IH. apply Permutation_swap.
Qed.

(** Sorting rearranges and nothing else. *)
Lemma sort_Permutation {A} (cmp : A → A → Z) (l : list A) :
  sort cmp l ≡ₚ l.
Proof.
  induction l as [|x l IH]; cbn; [reflexivity|].
  now rewrite insert_by_Permutation, IH.
Qed.

Lemma named_ids (s : Offline.state) (l : list Product.t) :
  map Product.id (map (named s) l) = map Product.id l.
Proof. rewrite map_map. now apply map_ext. Qed.

(** X8: the offline listing of everything is a rearrangement of the live
    products, so it has their number; a listing for a search or a category
    has no more products; and when the ids of the live products are
    unique, no listing shows an id twice. *)
Theorem offline_listing_rearranges (search category : string)
    (s : Offline.state) :
  Offline.getProducts_list "" "all" s ≡ₚ map (named s) (live s)
  ∧ length (Offline.getProducts_list "" "all" s) = length (live s)
  ∧ (length (Offline.getProducts_list search category s)
     ≤ length (live s))%nat
  ∧ (unique_ids (live s) →
     unique_ids (Offline.getProducts_list search category s)).
Proof.
  assert (Hall : Offline.getProducts_list "" "all" s
                 ≡ₚ map (named s) (live s)).
  { unfold Offline.getProducts_list.
    change (String.eqb "all" "all") with true. cbv iota.
    apply sort_Permutation. }
  split; [exact Hall|]. split; [now rewrite Hall, length_map|].
  unfold Offline.getProducts_list. fold (live s). fold (named s).
  set (searched :=
         if truthy search
         then List.filter (Offline.matches (toLowerCase search))
                (map (named s) (live s))
         else map (named s) (live s)).
  set (filtered :=
         if String.eqb category "all" then searched
         else List.filter (Offline.in_category category) searched).
  assert (Hsearched : (length searched ≤ length (live s))%nat).
  { subst searched. destruct (truthy search).
    - etransitivity; [apply filter_length_le|]. now rewrite length_map.
    - now rewrite length_map. }
  assert (Hfiltered : (length filtered ≤ length (live s))%nat).
  { subst filtered. destruct (String.eqb category "all"); [exact Hsearched|].
    etransitivity; [apply filter_length_le|exact Hsearched]. }
  split; [now rewrite sort_Permutation|].
  intros Hunique. unfold unique_ids. rewrite sort_Permutation.
  assert (Hnamed : unique_ids (map (named s) (live s))).
  { unfold unique_ids. now rewrite named_ids. }
  subst filtered searched.
  destruct (truthy search), (String.eqb category "all");
    repeat apply unique_ids_filter; exact Hnamed.
Qed.

Lemma offline_listing_rearranges_witness :
  let s := Offline.load 1000 true true empty_storage in
  unique_ids (Offline.getProducts_list "pvc" "1" s).
Proof.
  intros s.
  assert (Hunique : unique_ids (live s)).
  { apply (bool_decide_unpack _). vm_compute. exact I. }
  exact (proj2 (proj2 (proj2 (offline_listing_rearranges "pvc" "1" s)))
           Hunique).
Defined.

(** ** The offline store: what mutations leave alone *)

Lemma apply_keeps_categories (o : operation) (s : Offline.state) :
  Offline.CATEGORIES (Offline.localStorage (apply o s))
  = Offline.CATEGORIES (Offline.localStorage s)
  ∧ Offline.SAMPLE_CATEGORIES (apply o s) = Offline.SAMPLE_CATEGORIES s.
Proof.
  destruct o as [e d|e u|e i]; cbn.
  - unfold Offline.createProduct. cbn.
    now destruct (Offline.PRODUCTS (Offline.localStorage s)).
  - unfold Offline.updateProduct.
    now destruct (list_find _ _) as [[index old]|].
  - unfold Offline.deleteProduct. now destruct (_ =? _)%nat.
Qed.

(** X9: creations, updates and deletions of products never touch the
    categories: after any sequence of them the stored categories and the
    sample categories are the same, and so is what [getCategories]
    answers. *)
Theorem offline_mutations_keep_categories (ops : list operation)
    (s : Offline.state) :
  Offline.CATEGORIES (Offline.localStorage (run ops s))
  = Offline.CATEGORIES (Offline.localStorage s)
  ∧ Offline.SAMPLE_CATEGORIES (run ops s) = Offline.SAMPLE_CATEGORIES s
  ∧ Offline.getCategories (run ops s) = Offline.getCategories s.
Proof.
  assert (Hboth :
            Offline.CATEGORIES (Offline.localStorage (run ops s))
            = Offline.CATEGORIES (Offline.localStorage s)
            ∧ Offline.SAMPLE_CATEGORIES (run ops s)
              = Offline.SAMPLE_CATEGORIES s).
  { revert s. induction ops as [|o ops IH]; intros s; [now split|].
    change (run (o :: ops) s) with (run ops (apply o s)).
    destruct (IH (apply o s)) as [Hstored Hsample].
    destruct (apply_keeps_categories o s) as [Hstored' Hsample'].
    split; congruence. }
  destruct Hboth as [Hstored Hsample]. split; [exact Hstored|].
  split; [exact Hsample|]. unfold Offline.getCategories.
  now rewrite Hstored, Hsample.
Qed.

Lemma apply_keeps_samples (o : operation) (s : Offline.state)
    (ps : list Product.t) :
  Offline.PRODUCTS (Offline.localStorage s) = Stored ps →
  Offline.SAMPLE_PRODUCTS (apply o s) = Offline.SAMPLE_PRODUCTS s
  ∧ ∃ ps', Offline.PRODUCTS (Offline.localStorage (apply o s)) = Stored ps'.
Proof.
  intros Hstored. destruct o as [e d|e u|e i]; cbn.
  - unfold Offline.createProduct. rewrite Hstored. cbn. rewrite Hstored.
    split; [reflexivity|]. destruct (Offline.setItem_ok e); cbn; eauto.
  - unfold Offline.updateProduct.
    destruct (list_find _ _) as [[index old]|]; cbn; [|eauto].
    rewrite Hstored. split; [reflexivity|].
    destruct (Offline.setItem_ok e); cbn; eauto.
  - unfold Offline.deleteProduct. destruct (_ =? _)%nat; cbn; [eauto|].
    rewrite Hstored. split; [reflexivity|].
    destruct (Offline.setItem_ok e); cbn; eauto.
Qed.

(** X10: on a store whose products entry holds a stored collection, no
    sequence of mutations changes the sample array in memory or makes the
    entry unreadable, whether the writes go through or not; so [resetData],
    when its write goes through, stores the samples as they were. *)
Theorem offline_samples_stable (ops : list operation) (s : Offline.state)
    (ps : list Product.t) :
  Offline.PRODUCTS (Offline.localStorage s) = Stored ps →
  Offline.SAMPLE_PRODUCTS (run ops s) = Offline.SAMPLE_PRODUCTS s
  ∧ (∃ ps', Offline.PRODUCTS (Offline.localStorage (run ops s)) = Stored ps')
  ∧ ∀ okc,
      Offline.PRODUCTS
        (Offline.localStorage (Offline.resetData okc true (run ops s)))
      = Stored (Offline.SAMPLE_PRODUCTS s).
Proof.
  intros Hstored.
  assert (Hboth :
            Offline.SAMPLE_PRODUCTS (run ops s) = Offline.SAMPLE_PRODUCTS s
            ∧ ∃ ps', Offline.PRODUCTS (Offline.localStorage (run ops s))
                     = Stored ps').
  { revert s ps Hstored.
    induction ops as [|o ops IH]; intros s ps Hstored; [cbn; eauto|].
    change (run (o :: ops) s) with (run ops (apply o s)).
    destruct (apply_keeps_samples o s ps Hstored) as [Hsample [ps1 Hstored1]].
    destruct (IH (apply o s) ps1 Hstored1) as [Hsample' Hstored'].
    split; [congruence|exact Hstored']. }
  destruct Hboth as [Hsample Hentry]. split; [exact Hsample|].
  split; [exact Hentry|]. intros okc. cbn. now rewrite Hsample.
Qed.

Lemma offline_samples_stable_witness :
  let s := Offline.load 1000 true true empty_storage in
  let e := {| Offline.now := 2000; Offline.now' := 2001;
              Offline.setItem_ok := true |} in
  let d := ProductData.mk "Pelle" (Given "Pelle ronde") 5 900 1500 4 10
             Absent in
  Offline.SAMPLE_PRODUCTS (run [Create e d; Delete e 1] s)
  = Offline.sample_products 1000.
Proof.
  intros s e d.
  exact (proj1 (offline_samples_stable [Create e d; Delete e 1] s
                  (Offline.sample_products 1000) eq_refl)).
Defined.

(** X11: [importData] followed by [exportData] gives back the categories
    and the products that were imported when both writes go through, and
    what was there before when both fail; an import of an empty collection
    does not outlast the next initialization, which stores the samples
    over it. *)
Theorem offline_import_export (categories : list Category.t)
    (products : list Product.t) (s : Offline.state) :
  Offline.exportData (Offline.importData true true categories products s)
  = (categories, products)
  ∧ Offline.exportData (Offline.importData false false categories products s)
    = Offline.exportData s
  ∧ (∀ okc,
       Offline.PRODUCTS
         (Offline.localStorage
            (Offline.initializeData okc true
               (Offline.importData true true categories [] s)))
       = Stored (Offline.SAMPLE_PRODUCTS s))
  ∧ (∀ okp,
       Offline.CATEGORIES
         (Offline.localStorage
            (Offline.initializeData true okp
               (Offline.importData true true [] products s)))
       = Stored (Offline.SAMPLE_CATEGORIES s)).
Proof.
  split; [reflexivity|]. split.
  { now destruct s as [[stored_products0 stored_categories] sc sp]. }
  split.
  - intros okc. unfold Offline.initializeData. cbn.
    now destruct (length categories =? 0)%nat.
  - intros okp. unfold Offline.initializeData. cbn.
    now destruct (length products =? 0)%nat, okp.
Qed.

(** ** The facade over a server that answers *)

Lemma serve_answer (crashed : fetched) (e : Serverless.Env)
    (fs fs1 : Serverless.files) (req : Request) :
  Serverless.initializeData e fs = Returns fs1 →
  Serverless.serve crashed e fs req
  = Json match Serverless.route e req fs1 with
         | Returns (response, _) => body response
         | Throws message => failed message
         end.
Proof.
  intros Hinit. unfold Serverless.serve, Serverless.handler.
  rewrite Hinit. now destruct (Serverless.route e req fs1) as [|[? ?]].
Qed.

(** X13: the serverless handler has no route for one product or for
    images.  Whenever it answers, the facade's [getProductById],
    [uploadImage] and [deleteImage] return the failure [Endpoint not
    found], and no image is handed to the offline backend. *)
Theorem facade_over_serverless_unrouted (crashed : fetched)
    (e : Serverless.Env) (fs fs1 : Serverless.files) (id : Z) (file : File)
    (url : string) :
  Serverless.initializeData e fs = Returns fs1 →
  Api.getProductById (Serverless.serve crashed e fs) id
  = failed "Endpoint not found"
  ∧ Api.uploadImage (Serverless.serve crashed e fs) file
    = failed "Endpoint not found"
  ∧ Api.deleteImage (Serverless.serve crashed e fs) url
    = failed "Endpoint not found".
Proof.
  intros Hinit.
  unfold Api.getProductById, Api.uploadImage, Api.deleteImage.
  now rewrite !(serve_answer crashed e fs fs1 _ Hinit).
Qed.

Lemma facade_over_serverless_unrouted_witness :
  let e := {| Serverless.now := 2000; Serverless.now' := 2000;
              Serverless.writeFile_error := None |} in
  Api.uploadImage (Serverless.serve Threw e no_files)
    {| readAsDataURL := Some "data:image/png;base64,AAAA" |}
  = failed "Endpoint not found".
Proof.
  intros e.
  exact (proj1 (proj2 (facade_over_serverless_unrouted Threw e no_files _ 1
                         {| readAsDataURL :=
                              Some "data:image/png;base64,AAAA" |}
                         "/uploads/a.png" eq_refl))).
Defined.

(** X14: a listing that the facade gets from the serverless handler is the
    handler's listing for the same search text and for the same category
    (an empty category is taken for [all]); it carries no pagination and
    does not depend on the page, the limit, the sort field or the sort
    order that were requested; an error of the handler's reads comes back
    as a failure with its message. *)
Theorem facade_over_serverless_listing (crashed : fetched)
    (e : Serverless.Env) (fs fs1 : Serverless.files)
    (search category : string) (page limit : Z) (sortBy sortOrder : string)
    (s : Offline.state) :
  Serverless.initializeData e fs = Returns fs1 →
  Api.getProducts (Serverless.serve crashed e fs) search category page limit
    sortBy sortOrder s
  = match Serverless.getProducts search (requested_category category) fs1
    with
    | Returns products => listed_products products
    | Throws message => failed message
    end.
Proof.
  intros Hinit. unfold Api.getProducts.
  rewrite (serve_answer crashed e fs fs1 _ Hinit).
  unfold Serverless.route, mbind, attempt_bind.
  assert (Hsearch :
            or_else (if truthy search then Some search else None) ""
            = search).
  { destruct search; reflexivity. }
  assert (Hcategory :
            or_else (if String.eqb category "all" then None
                     else Some category) "all"
            = requested_category category).
  { unfold requested_category.
    destruct (String.eqb category "all") eqn:Hall.
    - apply String.eqb_eq in Hall. now subst category.
    - reflexivity. }
  rewrite Hsearch, Hcategory.
  now destruct (Serverless.getProducts _ _ fs1).
Qed.

Lemma facade_over_serverless_listing_witness :
  let e := {| Serverless.now := 2000; Serverless.now' := 2000;
              Serverless.writeFile_error := None |} in
  let s := Offline.load 1000 true true empty_storage in
  Result.pagination
    (Api.getProducts (Serverless.serve Threw e no_files) "robinet" "" 3 10
       "name" "ASC" s)
  = None.
Proof.
  intros e s.
  now rewrite (facade_over_serverless_listing Threw e no_files _ "robinet"
                 "" 3 10 "name" "ASC" s eq_refl).
Defined.

(** ** The serverless handler *)

Lemma handler_on_files (e : Serverless.Env) (req : Request)
    (ps : entry (list Product.t)) (cs : entry (list Category.t)) :
  ps ≠ Missing → cs ≠ Missing →
  let fs := {| Serverless.PRODUCTS_FILE := ps;
               Serverless.CATEGORIES_FILE := cs |} in
  Serverless.handler e req fs
  = match Serverless.route e req fs with
    | Returns (response, fs') => (Some response, fs')
    | Throws message =>
        (Some {| statusCode := 500; body := failed message |}, fs)
    end.
Proof.
  intros Hps Hcs fs. unfold Serverless.handler, Serverless.initializeData.
  subst fs. cbn. now destruct ps, cs.
Qed.

(** X15: a creation that the handler answers with the status 200 answers
    the largest id plus one, as doubles add, and has appended the new
    product to the file; the listing of everything that follows has one
    product more and shows the new one with the name of its category. *)
Theorem serverless_create_is_listed (e e' : Serverless.Env)
    (d : ProductData.t) (cs : list Category.t) (ps : list Product.t)
    (page limit : Z) (sortBy sortOrder : string) :
  let fs := {| Serverless.PRODUCTS_FILE := Stored ps;
               Serverless.CATEGORIES_FILE := Stored cs |} in
  statusCode <$> fst (Serverless.handler e (POST_products d) fs) = Some 200 →
  let newId := plus_one (max_with_0 (map Product.id ps)) in
  let new := Serverless.new_product e newId d in
  let fs' := {| Serverless.PRODUCTS_FILE := Stored (ps ++ [new]);
                Serverless.CATEGORIES_FILE := Stored cs |} in
  Serverless.handler e (POST_products d) fs
  = (Some {| statusCode := 200; body := created newId |}, fs')
  ∧ ∃ listing,
      Serverless.handler e'
        (GET_products None None page limit sortBy sortOrder) fs'
      = (Some {| statusCode := 200; body := listed_products listing |}, fs')
      ∧ In (Product.with_category_name
              (Serverless.category_name_of cs new) new) listing
      ∧ length listing = S (length ps).
Proof.
  intros fs Hstatus newId new fs'.
  assert (Hok : Serverless.writeFile_error e = None).
  { subst fs. rewrite handler_on_files in Hstatus by discriminate.
    unfold Serverless.route, Serverless.saveProducts, Serverless.writeFile,
      mbind, attempt_bind in Hstatus. cbn in Hstatus.
    destruct (Serverless.writeFile_error e); [discriminate Hstatus|].
    reflexivity. }
  split.
  - subst fs. rewrite handler_on_files by discriminate.
    unfold Serverless.route, Serverless.saveProducts, Serverless.writeFile,
      mbind, attempt_bind. cbn. now rewrite Hok.
  - exists (sort Offline.by_created_at_desc
              (map (λ p, Product.with_category_name
                           (Serverless.category_name_of cs p) p)
                 (ps ++ [new]))).
    split.
    + subst fs'. rewrite handler_on_files by discriminate. reflexivity.
    + split.
      * apply In_sort. apply in_map_iff. exists new.
        split; [reflexivity|]. apply in_or_app. right. now left.
      * rewrite sort_Permutation, length_map, length_app. cbn. lia.
Qed.

Lemma serverless_create_is_listed_witness :
  let e := {| Serverless.now := 2000; Serverless.now' := 2001;
              Serverless.writeFile_error := None |} in
  let d := ProductData.mk "Pelle" (Given "Pelle ronde") 5 900 1500 4 10
             Absent in
  fst (Serverless.handler e (POST_products d)
         {| Serverless.PRODUCTS_FILE :=
              Stored (Serverless.default_products 1000);
            Serverless.CATEGORIES_FILE :=
              Stored (Serverless.default_categories 1000) |})
  = Some {| statusCode := 200; body := created 8 |}.
Proof.
  intros e d.
  now rewrite (proj1 (serverless_create_is_listed e e d
                        (Serverless.default_categories 1000)
                        (Serverless.default_products 1000) 1 50
                        "created_at" "DESC" eq_refl)).
Defined.

(** X16: a deletion that the handler writes is answered by a success
    whether a product has the id or not; the file then holds the products
    of the other ids, in their order, and when no product had the id its
    content is what it was. *)
Theorem serverless_delete (e : Serverless.Env) (i : Z)
    (cs : list Category.t) (ps : list Product.t) :
  Serverless.writeFile_error e = None →
  let fs := {| Serverless.PRODUCTS_FILE := Stored ps;
               Serverless.CATEGORIES_FILE := Stored cs |} in
  let remaining := List.filter (λ p, negb (Product.id p =? i)) ps in
  Serverless.handler e (DELETE_products i) fs
  = (Some {| statusCode := 200; body := succeeded |},
     {| Serverless.PRODUCTS_FILE := Stored remaining;
        Serverless.CATEGORIES_FILE := Stored cs |})
  ∧ (i ∉ map Product.id remaining)
  ∧ (∀ p, Product.id p ≠ i → (In p remaining ↔ In p ps))
  ∧ (i ∉ map Product.id ps → remaining = ps).
Proof.
  intros Hok fs remaining. split; [|split; [|split]].
  - subst fs. rewrite handler_on_files by discriminate.
    unfold Serverless.route, Serverless.saveProducts, Serverless.writeFile,
      mbind, attempt_bind. cbn. now rewrite Hok.
  - apply filter_removes_id.
  - intros p Hp. subst remaining.
    rewrite filter_In, negb_true_iff, Z.eqb_neq. tauto.
  - apply filter_unknown_same.
Qed.

Lemma serverless_delete_witness :
  let e := {| Serverless.now := 2000; Serverless.now' := 2001;
              Serverless.writeFile_error := None |} in
  fst (Serverless.handler e (DELETE_products 99)
         {| Serverless.PRODUCTS_FILE :=
              Stored (Serverless.default_products 1000);
            Serverless.CATEGORIES_FILE :=
              Stored (Serverless.default_categories 1000) |})
  = Some {| statusCode := 200; body := succeeded |}.
Proof.
  intros e.
  now rewrite (proj1 (serverless_delete e 99
                        (Serverless.default_categories 1000)
                        (Serverless.default_products 1000) eq_refl)).
Defined.



Lemma initializeData_keeps (e : Serverless.Env) (fs fs1 : Serverless.files) :
  Serverless.initializeData e fs = Returns fs1 →
  (Serverless.PRODUCTS_FILE fs ≠ Missing →
   Serverless.PRODUCTS_FILE fs1 = Serverless.PRODUCTS_FILE fs)
  ∧ (Serverless.CATEGORIES_FILE fs ≠ Missing →
     Serverless.CATEGORIES_FILE fs1 = Serverless.CATEGORIES_FILE fs)
  ∧ Serverless.PRODUCTS_FILE fs1 ≠ Missing
  ∧ Serverless.CATEGORIES_FILE fs1 ≠ Missing.
Proof.
  unfold Serverless.initializeData, Serverless.writeFile, mbind, attempt_bind.
  intros Hinit.
  destruct (Serverless.CATEGORIES_FILE fs), (Serverless.PRODUCTS_FILE fs),
    (Serverless.writeFile_error e);
    try discriminate Hinit; injection Hinit as <-; cbn;
    repeat split; try discriminate; try reflexivity; intros Hne;
    now destruct Hne.
Qed.

Lemma saveProducts_keeps_categories (e : Serverless.Env)
    (ps : list Product.t) (fs fs' : Serverless.files) :
  Serverless.saveProducts e ps fs = Returns fs' →
  Serverless.CATEGORIES_FILE fs' = Serverless.CATEGORIES_FILE fs.
Proof.
  unfold Serverless.saveProducts, Serverless.writeFile, mbind, attempt_bind.
  intros Hsave. destruct (Serverless.writeFile_error e);
    [discriminate Hsave|]. now injection Hsave as <-.
Qed.

Lemma route_keeps_categories (e : Serverless.Env) (req : Request)
    (fs fs' : Serverless.files) (response : Response) :
  Serverless.route e req fs = Returns (response, fs') →
  Serverless.CATEGORIES_FILE fs' = Serverless.CATEGORIES_FILE fs.
Proof.
  intros Hroute.
  destruct req as [|search category page limit sortBy sortOrder|id|d|u|id
                  |image|url]; cbn in Hroute;
    unfold mbind, attempt_bind in Hroute.
  - destruct (Serverless.getCategories fs); [discriminate|].
    now injection Hroute as _ <-.
  - destruct (Serverless.getProducts _ _ fs); [discriminate|].
    now injection Hroute as _ <-.
  - now injection Hroute as _ <-.
  - destruct (Serverless.readFile _) as [|ps]; [discriminate|].
    destruct (Serverless.saveProducts _ _ _) as [|fs1] eqn:Hsave;
      [discriminate|].
    injection Hroute as _ <-.
    exact (saveProducts_keeps_categories _ _ _ _ Hsave).
  - destruct (Serverless.readFile _) as [|ps]; [discriminate|].
    destruct (list_find _ ps) as [[index old]|].
    + destruct (Serverless.saveProducts _ _ _) as [|fs1] eqn:Hsave;
        [discriminate|].
      injection Hroute as _ <-.
      exact (saveProducts_keeps_categories _ _ _ _ Hsave).
    + now injection Hroute as _ <-.
  - destruct (Serverless.readFile _) as [|ps]; [discriminate|].
    destruct (Serverless.saveProducts _ _ _) as [|fs1] eqn:Hsave;
      [discriminate|].
    injection Hroute as _ <-.
    exact (saveProducts_keeps_categories _ _ _ _ Hsave).
  - now injection Hroute as _ <-.
  - now injection Hroute as _ <-.
Qed.

Lemma route_corrupt (e : Serverless.Env) (req : Request)
    (fs fs' : Serverless.files) (response : Response) (message : string) :
  Serverless.PRODUCTS_FILE fs = Corrupt message →
  Serverless.route e req fs = Returns (response, fs') →
  fs' = fs.
Proof.
  intros Hcorrupt Hroute.
  destruct req as [|search category page limit sortBy sortOrder|id|d|u|id
                  |image|url]; cbn in Hroute;
    unfold mbind, attempt_bind, Serverless.getProducts in Hroute;
    rewrite ?Hcorrupt in Hroute; cbn in Hroute;
    try discriminate Hroute.
  - destruct (Serverless.getCategories fs); [discriminate|].
    now injection Hroute as _ <-.
  - now injection Hroute as _ <-.
  - now injection Hroute as _ <-.
  - now injection Hroute as _ <-.
Qed.

Lemma handler_keeps_corrupt (e : Serverless.Env) (req : Request)
    (fs : Serverless.files) (message : string) :
  Serverless.PRODUCTS_FILE fs = Corrupt message →
  Serverless.PRODUCTS_FILE (snd (Serverless.handler e req fs))
  = Corrupt message.
Proof.
  intros Hcorrupt. unfold Serverless.handler.
  destruct (Serverless.initializeData e fs) as [|fs1] eqn:Hinit;
    [exact Hcorrupt|].
  destruct (initializeData_keeps _ _ _ Hinit) as (Hproducts & _).
  assert (Hcorrupt1 : Serverless.PRODUCTS_FILE fs1 = Corrupt message).
  { rewrite Hproducts; [exact Hcorrupt|]. now rewrite Hcorrupt. }
  destruct (Serverless.route e req fs1) as [|[response fs2]] eqn:Hroute;
    cbn; [exact Hcorrupt1|].
  now rewrite (route_corrupt _ _ _ _ _ _ Hcorrupt1 Hroute).
Qed.

(** X18: the handler never repairs a products file that cannot be parsed.
    After any sequence of requests the file is as unreadable as before, and
    every listing, creation, update and deletion that is answered is
    answered by the failure with the status 500 and the message of the
    parse error. *)
Theorem serverless_never_repairs
    (requests : list (Serverless.Env * Request)) (fs : Serverless.files)
    (message : string) :
  Serverless.PRODUCTS_FILE fs = Corrupt message →
  let fs' := serve_all requests fs in
  Serverless.PRODUCTS_FILE fs' = Corrupt message
  ∧ ∀ e req response,
      fst (Serverless.handler e req fs') = Some response →
      match req with
      | GET_products _ _ _ _ _ _ | POST_products _ | PUT_products _
      | DELETE_products _ =>
          response = {| statusCode := 500; body := failed message |}
      | _ => True
      end.
Proof.
  intros Hcorrupt fs'.
  assert (Hstays : Serverless.PRODUCTS_FILE fs' = Corrupt message).
  { subst fs'. revert fs Hcorrupt.
    induction requests as [|r requests IH]; intros fs Hcorrupt;
      [exact Hcorrupt|].
    change (serve_all (r :: requests) fs)
      with (serve_all requests
              (snd (Serverless.handler (fst r) (snd r) fs))).
    apply IH. now apply handler_keeps_corrupt. }
  split; [exact Hstays|].
  intros e req response. unfold Serverless.handler.
  destruct (Serverless.initializeData e fs') as [|fs1] eqn:Hinit;
    [discriminate|].
  destruct (initializeData_keeps _ _ _ Hinit) as (Hproducts & _).
  assert (Hcorrupt1 : Serverless.PRODUCTS_FILE fs1 = Corrupt message).
  { rewrite Hproducts; [exact Hstays|]. now rewrite Hstays. }
  destruct req; try (intros _; exact I);
    unfold Serverless.route, Serverless.getProducts, mbind, attempt_bind;
    rewrite Hcorrupt1; cbn; intros Hresponse; now injection Hresponse as <-.
Qed.

Lemma serverless_never_repairs_witness :
  let e := {| Serverless.now := 2000; Serverless.now' := 2001;
              Serverless.writeFile_error := None |} in
  let fs := {| Serverless.PRODUCTS_FILE := Corrupt "Unexpected token";
               Serverless.CATEGORIES_FILE := Missing |} in
  Serverless.PRODUCTS_FILE
    (serve_all [(e, GET_categories); (e, DELETE_products 1)] fs)
  = Corrupt "Unexpected token".
Proof.
  intros e fs.
  exact (proj1 (serverless_never_repairs
                  [(e, GET_categories); (e, DELETE_products 1)] fs
                  "Unexpected token" eq_refl)).
Defined.

Lemma handler_keeps_categories (e : Serverless.Env) (req : Request)
    (fs : Serverless.files) :
  Serverless.CATEGORIES_FILE fs ≠ Missing →
  Serverless.CATEGORIES_FILE (snd (Serverless.handler e req fs))
  = Serverless.CATEGORIES_FILE fs.
Proof.
  intros Hexists. unfold Serverless.handler.
  destruct (Serverless.initializeData e fs) as [|fs1] eqn:Hinit;
    [reflexivity|].
  destruct (initializeData_keeps _ _ _ Hinit) as (_ & Hcategories & _).
  destruct (Serverless.route e req fs1) as [|[response fs2]] eqn:Hroute;
    cbn; [now apply Hcategories|].
  rewrite (route_keeps_categories _ _ _ _ _ Hroute). now apply Hcategories.
Qed.

(** X19: once the categories file exists, no request changes it: after any
    sequence of requests its content is what it was, be it readable or
    not. *)
Theorem serverless_categories_fixed
    (requests : list (Serverless.Env * Request)) (fs : Serverless.files) :
  Serverless.CATEGORIES_FILE fs ≠ Missing →
  Serverless.CATEGORIES_FILE (serve_all requests fs)
  = Serverless.CATEGORIES_FILE fs.
Proof.
  revert fs. induction requests as [|r requests IH]; intros fs Hexists;
    [reflexivity|].
  change (serve_all (r :: requests) fs)
    with (serve_all requests (snd (Serverless.handler (fst r) (snd r) fs))).
  rewrite IH; rewrite handler_keeps_categories; auto.
Qed.

Lemma serverless_categories_fixed_witness :
  let e := {| Serverless.now := 2000; Serverless.now' := 2001;
              Serverless.writeFile_error := None |} in
  let d := ProductData.mk "Pelle" (Given "Pelle ronde") 5 900 1500 4 10
             Absent in
  let fs := {| Serverless.PRODUCTS_FILE := Missing;
               Serverless.CATEGORIES_FILE :=
                 Stored (Serverless.default_categories 1000) |} in
  Serverless.CATEGORIES_FILE
    (serve_all [(e, POST_products d); (e, DELETE_products 1)] fs)
  = Stored (Serverless.default_categories 1000).
Proof.
  intros e d fs.
  apply (serverless_categories_fixed
           [(e, POST_products d); (e, DELETE_products 1)] fs).
  discriminate.
Defined.

(** X20: an update that the handler writes changes the record at the index
    where the id was found and nothing else: the file keeps the number of
    its products, their ids and every other record.  The record that is
    stored has the id and the values of the request and the date of the
    update; a description or an image that the request leaves out is
    gone. *)
Theorem serverless_update_in_place (e : Serverless.Env)
    (u : ProductUpdate.t) (cs : list Category.t) (ps : list Product.t)
    (index : nat) (old : Product.t) :
  Serverless.writeFile_error e = None →
  list_find (λ p, Product.id p = ProductUpdate.id u) ps = Some (index, old) →
  let fs := {| Serverless.PRODUCTS_FILE := Stored ps;
               Serverless.CATEGORIES_FILE := Stored cs |} in
  let new := Serverless.replaced_product e u in
  let ps' := <[index := new]> ps in
  Serverless.handler e (PUT_products u) fs
  = (Some {| statusCode := 200; body := succeeded |},
     {| Serverless.PRODUCTS_FILE := Stored ps';
        Serverless.CATEGORIES_FILE := Stored cs |})
  ∧ ps' !! index = Some new
  ∧ length ps' = length ps
  ∧ (∀ j, j ≠ index → ps' !! j = ps !! j)
  ∧ map Product.id ps' = map Product.id ps
  ∧ Product.id new = Product.id old
  ∧ Product.updated_at new = Serverless.now e
  ∧ Product.name new = ProductData.name (ProductUpdate.data u)
  ∧ Product.description new
    = read (ProductData.description (ProductUpdate.data u))
  ∧ Product.image_url new
    = read (ProductData.image_url (ProductUpdate.data u)).
Proof.
  intros Hok Hfind fs new ps'.
  pose proof (proj1 (list_find_Some _ _ _ _) Hfind) as (Hlookup & Hid & _).
  split; [|split; [|split; [|split; [|split; [|split]]]]].
  - subst fs. rewrite handler_on_files by discriminate.
    unfold Serverless.route, Serverless.saveProducts, Serverless.writeFile,
      mbind, attempt_bind. cbn. now rewrite Hfind, Hok.
  - apply list_lookup_insert_eq. now apply lookup_lt_Some in Hlookup.
  - apply length_insert.
  - intros j Hj. now apply list_lookup_insert_ne.
  - now apply (ids_insert_found _ _ _ _ _ Hfind).
  - cbn. congruence.
  - repeat split.
Qed.

Lemma serverless_update_in_place_witness :
  let e := {| Serverless.now := 2000; Serverless.now' := 2001;
              Serverless.writeFile_error := None |} in
  let u := ProductUpdate.mk 2
             (ProductData.mk "Tournevis" Absent 1 900 1300 20 10 Absent) in
  fst (Serverless.handler e (PUT_products u)
         {| Serverless.PRODUCTS_FILE :=
              Stored (Serverless.default_products 1000);
            Serverless.CATEGORIES_FILE :=
              Stored (Serverless.default_categories 1000) |})
  = Some {| statusCode := 200; body := succeeded |}.
Proof.
  intros e u.
  assert (Hfind :
            list_find (λ p, Product.id p = ProductUpdate.id u)
              (Serverless.default_products 1000)
            = Some (1%nat,
                    Serverless.default_product 1000 2 "Tournevis cruciforme"
                      "Tournevis cruciforme PH2" 1 800 1200 25 10))
    by reflexivity.
  now rewrite (proj1 (serverless_update_in_place e u
                        (Serverless.default_categories 1000)
                        (Serverless.default_products 1000) _ _ eq_refl
                        Hfind)).
Defined.

(** The two search predicates agree for a search text that is not empty. *)
Lemma matches_agree (search : string) (p : Product.t) :
  truthy search = true →
  Serverless.matches search p = Offline.matches (toLowerCase search) p.
Proof.
  intros Hsearch. unfold Serverless.matches, Offline.matches.
  destruct (Product.description p) as [[|c d]|]; [|reflexivity|reflexivity].
  destruct search as [|a search]; [discriminate Hsearch|reflexivity].
Qed.

(** X21: the listing of the serverless handler, over files that can be
    read, selects as the offline listing does, when the search text, the
    category and the names and descriptions of the products are ASCII texts
    and the category does not parse to a number beyond 2^53: a product of
    the file is listed, with the name of its category or [Aucune], exactly
    when the search text is empty or occurs, up to the case of letters, in
    its name or its description, and the category is [all] or parses to the
    product's category id. *)
Theorem serverless_listing_membership (search category : string)
    (cs : list Category.t) (ps : list Product.t) (p : Product.t) :
  ascii_text search = true →
  ascii_text category = true →
  safe_numeral category →
  Forall ascii_product ps →
  let fs := {| Serverless.PRODUCTS_FILE := Stored ps;
               Serverless.CATEGORIES_FILE := Stored cs |} in
  let named_by_file q :=
    Product.with_category_name (Serverless.category_name_of cs q) q in
  ∃ listing,
    Serverless.getProducts search category fs = Returns listing
    ∧ (In p listing
       ↔ In p (map named_by_file ps)
         ∧ (search = ""
            ∨ occurs_ignoring_case search (Product.name p)
            ∨ ∃ d, Product.description p = Some d
                   ∧ occurs_ignoring_case search d)
         ∧ (category = "all"
            ∨ parseInt category = Some (Product.category_id p))).
Proof.
  intros _ _ _ _ fs named_by_file. eexists. split; [reflexivity|].
  rewrite In_sort. fold named_by_file.
  assert (Hsearched :
            ∀ q, In q (if truthy search
                       then List.filter (Serverless.matches search)
                              (map named_by_file ps)
                       else map named_by_file ps)
                 ↔ In q (map named_by_file ps)
                   ∧ (search = ""
                      ∨ occurs_ignoring_case search (Product.name q)
                      ∨ ∃ d, Product.description q = Some d
                             ∧ occurs_ignoring_case search d)).
  { intros q. destruct search as [|a search]; cbn [truthy]; [tauto|].
    rewrite filter_In, matches_agree by reflexivity.
    unfold Offline.matches.
    rewrite orb_true_iff, includes_ignoring_case.
    destruct (Product.description q) as [d|].
    - rewrite includes_ignoring_case. split.
      + intros [Hq [Hname|Hd]]; [tauto|]. split; [exact Hq|].
        right. right. now exists d.
      + intros [Hq [Hempty|[Hname|(d' & Hd' & Hocc)]]];
          [discriminate Hempty|tauto|]. injection Hd' as <-. tauto.
    - split.
      + intros [Hq [Hname|Hd]]; [tauto|discriminate Hd].
      + intros [Hq [Hempty|[Hname|(d' & Hd' & Hocc)]]];
          [discriminate Hempty|tauto|discriminate Hd']. }
  destruct (String.eqb category "all") eqn:Hall.
  - apply String.eqb_eq in Hall. rewrite Hsearched. tauto.
  - apply String.eqb_neq in Hall. rewrite filter_In, Hsearched.
    unfold Offline.in_category.
    destruct (parseInt category) as [n|].
    + rewrite Z.eqb_eq. split.
      * intros [H1 ->]. tauto.
      * intros (H1 & H2 & [H3|H3]); [contradiction|].
        injection H3 as ->. tauto.
    + split; [intros [_ Hf]; discriminate Hf|].
      intros (_ & _ & [H3|H3]); [contradiction|discriminate H3].
Qed.

Lemma serverless_listing_membership_witness :
  let pelle := Product.mk 1 "Pelle" (Some "Pelle ronde") 5 None 900 1500 4
                 10 None (Some 1000) 1000 in
  let fs := {| Serverless.PRODUCTS_FILE := Stored [pelle];
               Serverless.CATEGORIES_FILE := Stored [] |} in
  ∃ listing,
    Serverless.getProducts "RONDE" "5" fs = Returns listing
    ∧ In (Product.with_category_name "Aucune" pelle) listing.
Proof.
  intros pelle fs.
  assert (Hps : Forall ascii_product [pelle]).
  { repeat constructor. intros d Hd. cbn in Hd. now injection Hd as <-. }
  assert (Hsafe : safe_numeral "5").
  { intros n Hn. vm_compute in Hn. injection Hn as <-. reflexivity. }
  destruct (serverless_listing_membership "RONDE" "5" [] [pelle]
              (Product.with_category_name "Aucune" pelle)
              eq_refl eq_refl Hsafe Hps)
    as (listing & Hlisting & Hin).
  exists listing. split; [exact Hlisting|]. apply Hin.
  split; [left; reflexivity|]. split; [|right; reflexivity].
  right. right. exists "Pelle ronde". split; [reflexivity|].
  exists "Pelle ", "ronde", "". split; reflexivity.
Defined.

(** ** The relational server *)

(** X23: the pagination of the relational listing, for a number of matching
    rows that is not negative and below 2^46, where the division of doubles
    and its ceiling are exact: the page size is the requested limit clamped
    to 1..100, so the limit itself within that range, 100 above it and 1
    below it; the current page is the requested page, or 1 when that is
    less; the number of pages is the least that holds every row, so none
    when no row matches; there is a next page exactly when the current one
    is before the last, and a previous page exactly when it is after the
    first. *)
Theorem relational_pagination (page limit total : Z) :
  0 ≤ total < 2 ^ 46 →
  let p := Express.pagination_of page limit total in
  1 ≤ itemsPerPage p ≤ 100
  ∧ (1 ≤ limit ≤ 100 → itemsPerPage p = limit)
  ∧ (100 < limit → itemsPerPage p = 100)
  ∧ (limit < 1 → itemsPerPage p = 1)
  ∧ 1 ≤ currentPage p
  ∧ (1 ≤ page → currentPage p = page)
  ∧ (page < 1 → currentPage p = 1)
  ∧ totalItems p = total
  ∧ (totalPages p - 1) * itemsPerPage p < total ≤ totalPages p * itemsPerPage p
  ∧ (totalPages p = 0 ↔ total = 0)
  ∧ (hasNextPage p = true ↔ currentPage p < totalPages p)
  ∧ (hasPrevPage p = true ↔ 1 < currentPage p).
Proof.
  intros [Htotal _] p. subst p. unfold Express.pagination_of.
  cbn [itemsPerPage currentPage totalItems totalPages hasNextPage
       hasPrevPage].
  set (L := Z.min 100 (Z.max 1 limit)).
  assert (HL : 1 ≤ L ≤ 100) by (subst L; lia).
  pose proof (Z.div_mod (total + L - 1) L ltac:(lia)) as Hdiv.
  pose proof (Z.mod_pos_bound (total + L - 1) L ltac:(lia)) as Hmod.
  set (q := (total + L - 1) / L) in *.
  split; [exact HL|]. split; [subst L; lia|]. split; [subst L; lia|].
  split; [subst L; lia|]. split; [lia|]. split; [lia|]. split; [lia|].
  split; [reflexivity|]. split; [nia|]. split; [nia|].
  split; [apply Z.ltb_lt|apply Z.ltb_lt].
Qed.

Lemma relational_pagination_witness :
  let p := Express.pagination_of 0 500 101 in
  itemsPerPage p = 100
  ∧ currentPage p = 1
  ∧ (totalPages p - 1) * itemsPerPage p < 101 ≤ totalPages p * itemsPerPage p.
Proof.
  intros p.
  assert (Htotal : 0 ≤ 101 < 2 ^ 46) by lia.
  destruct (relational_pagination 0 500 101 Htotal)
    as (_ & _ & Habove & _ & _ & _ & Hfirst & _ & Hpages & _).
  split; [apply Habove; lia|]. split; [apply Hfirst; lia|]. exact Hpages.
Defined.

(** The number of pages is the least that holds every row. *)
Lemma pagination_of_ceiling (page limit total : Z) :
  0 ≤ total →
  let p := Express.pagination_of page limit total in
  1 ≤ itemsPerPage p ≤ 100
  ∧ (totalPages p - 1) * itemsPerPage p < total ≤ totalPages p * itemsPerPage p.
Proof.
  intros Htotal p. subst p. unfold Express.pagination_of.
  cbn [itemsPerPage totalPages].
  set (L := Z.min 100 (Z.max 1 limit)).
  assert (HL : 1 ≤ L ≤ 100) by (subst L; lia).
  pose proof (Z.div_mod (total + L - 1) L ltac:(lia)) as Hdiv.
  pose proof (Z.mod_pos_bound (total + L - 1) L ltac:(lia)) as Hmod.
  set (q := (total + L - 1) / L) in *.
  split; [exact HL|nia].
Qed.

Lemma page_rows_chunk {A} (k : nat) (limit : Z) (rows : list A) :
  ExpressRoutes.page_rows (Z.of_nat (S k)) limit rows
  = take (Z.to_nat (ExpressRoutes.limitNum limit))
      (drop (k * Z.to_nat (ExpressRoutes.limitNum limit)) rows).
Proof.
  unfold ExpressRoutes.page_rows, ExpressRoutes.offset,
    ExpressRoutes.pageNum.
  assert (HL : 1 ≤ ExpressRoutes.limitNum limit)
    by (unfold ExpressRoutes.limitNum; lia).
  f_equal. f_equal. nia.
Qed.

Lemma chunks_take {A} (L n : nat) (rows : list A) :
  concat (map (λ k, take L (drop (k * L) rows)) (seq 0 n))
  = take (n * L) rows.
Proof.
  induction n as [|n IH]; [reflexivity|].
  rewrite seq_S, map_app, concat_app, IH. cbn [map concat].
  rewrite app_nil_r, take_take_drop. f_equal. lia.
Qed.

(** X24: the pages of the relational listing cover the rows that match,
    each row once and in order: for any requested limit, the slices that
    [LIMIT] and [OFFSET] cut for the pages 1 to [totalPages] join to the
    rows themselves; no page has more rows than the page size; and a page
    after the last is empty. *)
Theorem relational_pages_cover {A} (limit : Z) (rows : list A) :
  let p := Express.pagination_of 1 limit (Z.of_nat (length rows)) in
  concat (map (λ k, ExpressRoutes.page_rows (Z.of_nat (S k)) limit rows)
            (seq 0 (Z.to_nat (totalPages p))))
  = rows
  ∧ (∀ page, Z.of_nat (length (ExpressRoutes.page_rows page limit rows))
             ≤ itemsPerPage p)
  ∧ (∀ page, totalPages p < page →
             ExpressRoutes.page_rows page limit rows = []).
Proof.
  intros p.
  destruct (pagination_of_ceiling 1 limit (Z.of_nat (length rows))
              ltac:(lia)) as (HL & Hpages).
  fold p in HL, Hpages.
  assert (Hitems : itemsPerPage p = ExpressRoutes.limitNum limit)
    by reflexivity.
  set (L := Z.to_nat (ExpressRoutes.limitNum limit)).
  split; [|split].
  - erewrite map_ext; [|intros k; apply page_rows_chunk].
    fold L. rewrite chunks_take. apply take_ge. subst L. nia.
  - intros page. unfold ExpressRoutes.page_rows. rewrite length_take.
    rewrite Hitems. lia.
  - intros page Hpage. unfold ExpressRoutes.page_rows.
    rewrite drop_ge; [now rewrite take_nil|].
    unfold ExpressRoutes.offset, ExpressRoutes.pageNum. rewrite Hitems in *.
    nia.
Qed.

(** X25: the sort column and the direction that the relational listing
    writes into its query are always taken from its own lists, whatever
    the request says: the column is the requested one when it is one of
    the five valid columns and [created_at] otherwise, the direction is
    [ASC] or [DESC], and the clause is one of the ten that these give. *)
Theorem relational_sort_whitelist (sortBy sortOrder : string) :
  In (ExpressRoutes.sortColumn sortBy) ExpressRoutes.validSortColumns
  ∧ (In sortBy ExpressRoutes.validSortColumns →
     ExpressRoutes.sortColumn sortBy = sortBy)
  ∧ (¬ In sortBy ExpressRoutes.validSortColumns →
     ExpressRoutes.sortColumn sortBy = "created_at")
  ∧ (ExpressRoutes.order sortOrder = "ASC"
     ∨ ExpressRoutes.order sortOrder = "DESC")
  ∧ In (ExpressRoutes.order_by sortBy sortOrder)
      (flat_map
         (λ column,
            [" ORDER BY p." +:+ column +:+ " ASC LIMIT ? OFFSET ?";
             " ORDER BY p." +:+ column +:+ " DESC LIMIT ? OFFSET ?"])
         ExpressRoutes.validSortColumns).
Proof.
  assert (Hcolumn :
            In (ExpressRoutes.sortColumn sortBy)
              ExpressRoutes.validSortColumns).
  { unfold ExpressRoutes.sortColumn.
    destruct (existsb _ _) eqn:Hvalid; [|right; left; reflexivity].
    apply existsb_exists in Hvalid. destruct Hvalid as (c & Hc & Heq).
    apply String.eqb_eq in Heq. now subst c. }
  assert (Horder :
            ExpressRoutes.order sortOrder = "ASC"
            ∨ ExpressRoutes.order sortOrder = "DESC").
  { unfold ExpressRoutes.order. destruct (String.eqb _ _); tauto. }
  split; [exact Hcolumn|]. split; [|split; [|split; [exact Horder|]]].
  - intros Hvalid. unfold ExpressRoutes.sortColumn.
    destruct (existsb _ _) eqn:Hexists; [reflexivity|].
    assert (Htrue : existsb (String.eqb sortBy)
                      ExpressRoutes.validSortColumns = true).
    { apply existsb_exists. exists sortBy. split; [exact Hvalid|].
      apply String.eqb_refl. }
    congruence.
  - intros Hinvalid. unfold ExpressRoutes.sortColumn.
    destruct (existsb _ _) eqn:Hexists; [|reflexivity].
    apply existsb_exists in Hexists. destruct Hexists as (c & Hc & Heq).
    apply String.eqb_eq in Heq. now subst c.
  - unfold ExpressRoutes.order_by. apply in_flat_map.
    exists (ExpressRoutes.sortColumn sortBy). split; [exact Hcolumn|].
    destruct Horder as [-> | ->]; [left|right; left]; reflexivity.
Qed.

Lemma relational_sort_whitelist_witness :
  ExpressRoutes.sortColumn "selling_price" = "selling_price".
Proof.
  apply (proj1 (proj2 (relational_sort_whitelist "selling_price" "asc"))).
  do 4 right. left. reflexivity.
Defined.

Lemma unique_id_same (ps : list Product.t) (p q : Product.t) :
  unique_ids ps → In p ps → In q ps → Product.id p = Product.id q → p = q.
Proof.
  unfold unique_ids. induction ps as [|r ps IH]; cbn; [tauto|].
  intros Hunique Hp Hq Hid. apply NoDup_cons in Hunique.
  destruct Hunique as [Hr Hps].
  destruct Hp as [->|Hp], Hq as [->|Hq]; [reflexivity| | |now apply IH].
  - exfalso. apply Hr. rewrite Hid. apply list_elem_of_In. now apply in_map.
  - exfalso. apply Hr. rewrite <- Hid. apply list_elem_of_In.
    now apply in_map.
Qed.

(** X26: the relational server's reading of one product, for an id that
    is an ASCII text and does not parse to a number beyond 2^53.  An id
    that does not begin with a number, in base 10 or after [0x] in base 16,
    is answered by the status 400 before the database is asked; otherwise,
    when the query goes through, the product of that id is answered with
    the name of its category (none when no category has the id), and the
    status 404 with [Product not found] when no product has the id; an
    error of the query is answered by the status 500 with its message. *)
Theorem relational_get_product (id : string)
    (products : list Product.t) (categories : list Category.t) :
  ascii_text id = true →
  safe_numeral id →
  unique_ids products →
  (parseInt id = None →
   ∀ query_error,
     ExpressRoutes.get_product id query_error products categories
     = {| statusCode := 400; body := failed "Invalid product ID" |})
  ∧ (∀ productId,
       parseInt id = Some productId →
       (∀ p, In p products → Product.id p = productId →
             ExpressRoutes.get_product id None products categories
             = {| statusCode := 200;
                  body := Result.mk true None None None
                            (Some (ExpressRoutes.joined categories p))
                            None None None |})
       ∧ (productId ∉ map Product.id products →
          ExpressRoutes.get_product id None products categories
          = {| statusCode := 404; body := failed "Product not found" |})
       ∧ (∀ message,
            ExpressRoutes.get_product id (Some message) products categories
            = {| statusCode := 500; body := failed message |})).
Proof.
  intros _ _ Hunique. split.
  - intros Hnan query_error. unfold ExpressRoutes.get_product.
    now rewrite Hnan.
  - intros productId Hparsed. unfold ExpressRoutes.get_product.
    rewrite Hparsed. split; [|split; [|reflexivity]].
    + intros p Hp Hid. unfold ExpressRoutes.select_by_id.
      destruct (List.filter (λ q, Product.id q =? productId) products)
        as [|row rows] eqn:Hrows.
      * exfalso.
        assert (Hin : In p (List.filter (λ q, Product.id q =? productId)
                              products)).
        { apply filter_In. split; [exact Hp|]. now apply Z.eqb_eq. }
        rewrite Hrows in Hin. exact Hin.
      * assert (Hrow : In row (List.filter
                                 (λ q, Product.id q =? productId) products)).
        { rewrite Hrows. now left. }
        apply filter_In in Hrow. destruct Hrow as [Hrow Hrow_id].
        apply Z.eqb_eq in Hrow_id.
        assert (Hsame : row = p).
        { apply (unique_id_same products); try assumption. congruence. }
        now subst row.
    + intros Hunknown. unfold ExpressRoutes.select_by_id.
      destruct (List.filter (λ q, Product.id q =? productId) products)
        as [|row rows] eqn:Hrows; [reflexivity|].
      exfalso. apply Hunknown.
      assert (Hrow : In row (List.filter
                               (λ q, Product.id q =? productId) products)).
      { rewrite Hrows. now left. }
      apply filter_In in Hrow. destruct Hrow as [Hrow Hrow_id].
      apply Z.eqb_eq in Hrow_id. apply list_elem_of_In, in_map_iff.
      now exists row.
Qed.

Lemma relational_get_product_witness :
  let products := Serverless.default_products 1000 in
  let categories := Serverless.default_categories 1000 in
  ExpressRoutes.get_product "abc" None products categories
  = {| statusCode := 400; body := failed "Invalid product ID" |}
  ∧ ExpressRoutes.get_product "0x1A" None products categories
    = {| statusCode := 404; body := failed "Product not found" |}.
Proof.
  intros products categories.
  assert (Hunique : unique_ids products).
  { apply (bool_decide_unpack _). vm_compute. exact I. }
  assert (Hnan : safe_numeral "abc").
  { intros n Hn. vm_compute in Hn. discriminate Hn. }
  assert (Hhex : safe_numeral "0x1A").
  { intros n Hn. vm_compute in Hn. injection Hn as <-. reflexivity. }
  assert (Hunknown : 26 ∉ map Product.id products).
  { apply (bool_decide_unpack _). vm_compute. exact I. }
  split.
  - exact (proj1 (relational_get_product "abc" products categories
                    eq_refl Hnan Hunique)
             eq_refl None).
  - exact (proj1 (proj2 (proj2 (relational_get_product "0x1A" products
                                  categories eq_refl Hhex Hunique)
                           26 eq_refl))
             Hunknown).
Defined.

Lemma relational_pages_cover_witness :
  ExpressRoutes.page_rows 4 2 [10; 20; 30; 40; 50] = [].
Proof.
  apply (proj2 (proj2 (relational_pages_cover 2 [10; 20; 30; 40; 50]))).
  vm_compute. reflexivity.
Defined.

(** ** Initialization and stored data *)

(** X27: initialization never overwrites a collection that is there.  In
    the offline store a stored collection that is not empty stays as it
    is, whatever happens to the other one and whether writes go through or
    not; in the serverless handler a file that exists keeps its content,
    readable or not. *)
Theorem initialization_keeps_data :
  (∀ okc okp s p ps,
     Offline.PRODUCTS (Offline.localStorage s) = Stored (p :: ps) →
     Offline.PRODUCTS
       (Offline.localStorage (Offline.initializeData okc okp s))
     = Stored (p :: ps))
  ∧ (∀ okc okp s c cs,
       Offline.CATEGORIES (Offline.localStorage s) = Stored (c :: cs) →
       Offline.CATEGORIES
         (Offline.localStorage (Offline.initializeData okc okp s))
       = Stored (c :: cs))
  ∧ (∀ e fs fs1,
       Serverless.initializeData e fs = Returns fs1 →
       (Serverless.PRODUCTS_FILE fs ≠ Missing →
        Serverless.PRODUCTS_FILE fs1 = Serverless.PRODUCTS_FILE fs)
       ∧ (Serverless.CATEGORIES_FILE fs ≠ Missing →
          Serverless.CATEGORIES_FILE fs1 = Serverless.CATEGORIES_FILE fs)).
Proof.
  split; [|split].
  - intros okc okp [[stored_products0 stored_categories] sc sp] p ps Hstored.
    cbn in Hstored. subst stored_products0.
    unfold Offline.initializeData. cbn.
    now destruct (length (Offline.getStoredData stored_categories []) =? 0)%nat.
  - intros okc okp [[stored_products0 stored_categories] sc sp] c cs Hstored.
    cbn in Hstored. subst stored_categories.
    unfold Offline.initializeData. cbn.
    now destruct (length (Offline.getStoredData stored_products0 []) =? 0)%nat,
      okp.
  - intros e fs fs1 Hinit.
    destruct (initializeData_keeps _ _ _ Hinit) as (Hp & Hc & _).
    now split.
Qed.

Lemma initialization_keeps_data_witness :
  let s := Offline.load 1000 false true empty_storage in
  Offline.PRODUCTS (Offline.localStorage (Offline.initializeData true true s))
  = Stored (Offline.sample_products 1000).
Proof.
  intros s.
  exact (proj1 initialization_keeps_data true true s _ _ eq_refl).
Defined.
